(** * xs-backend: form validation and mail dispatch

    A shallow embedding of the two Express servers of the repository:
    the two-endpoint server (job application and contact form, the file
    with [multer]) and the older contact-only server [src/server.js].

    The embedding follows the JavaScript text: request bodies are
    JavaScript values, validators fill an [errors] object one [if] after
    the other, handlers run inside a [try]/[catch], and the mail
    transporter is an external collaborator whose calls are recorded. *)

From Stdlib Require Import ZArith NArith List Ascii String.
From stdpp Require Import gmap strings list.

Set Warnings "-register-all".
Local Open Scope N_scope.

(** ** JavaScript strings

    A JavaScript string is a sequence of UTF-16 code units. Neither
    regular expression of the servers carries the [u] flag, so matching,
    [trim], [replace] and [length] all work on code units. *)

Definition char := N.
Abbreviation jsstring := (list char).

(** The code units of an ASCII literal of the source. *)
Definition lit (s : string) : jsstring :=
  map N_of_ascii (list_ascii_of_string s).

(** The double quote, kept apart from the literals. *)
Definition dquote : char := 34.

(** [\d] without the [u] flag: the ten ASCII digits. *)
Definition is_digit (c : char) : bool := (48 <=? c) && (c <=? 57).

(** [\s], and the characters stripped by [String.prototype.trim]:
    WhiteSpace (TAB, VT, FF, SP, NBSP, ZWNBSP and the Unicode space
    separators) together with LineTerminator (LF, CR, LS, PS). *)
Definition is_space (c : char) : bool :=
  ((9 <=? c) && (c <=? 13))
  || (c =? 32) || (c =? 160) || (c =? 5760)
  || ((8192 <=? c) && (c <=? 8202))
  || (c =? 8232) || (c =? 8233) || (c =? 8239) || (c =? 8287)
  || (c =? 12288) || (c =? 65279).

Definition at_sign : char := 64.
Definition dot : char := 46.
Definition plus_sign : char := 43.
Definition hyphen : char := 45.
Definition lparen : char := 40.
Definition rparen : char := 41.
Definition blank : char := 32.
Definition comma : char := 44.

(** [String.prototype.trim]. *)
Fixpoint trimStart (s : jsstring) : jsstring :=
  match s with
  | c :: s' => if is_space c then trimStart s' else s
  | [] => []
  end.

Definition trim (s : jsstring) : jsstring :=
  rev (trimStart (rev (trimStart s))).

(** [s.replace(/\D/g, '')]: every code unit that is not a digit is
    deleted. *)
Definition stripNonDigits (s : jsstring) : jsstring := List.filter is_digit s.

(** ** Regular expressions

    The patterns of the source use character classes, concatenation,
    [?], [+] and [{10,}], and are anchored at both ends with [^] and [$].
    They carry no [m], [g] or [y] flag, so [test] keeps no state between
    calls, and they have no group, backreference or lookaround, so the
    backtracking search of the engine succeeds exactly when the whole
    string is in the language of the pattern. [test] below decides this
    by residuals; [Matches] is the language itself. *)

Inductive regex : Type :=
| Void : regex
| Eps : regex
| Class (p : char -> bool) : regex
| Seq (r1 r2 : regex) : regex
| Alt (r1 r2 : regex) : regex
| Star (r : regex) : regex.

Definition Chr (c : char) : regex := Class (N.eqb c).
Definition Opt (r : regex) : regex := Alt Eps r.
Definition Plus (r : regex) : regex := Seq r (Star r).

(** [r{n,}] *)
Fixpoint AtLeast (n : nat) (r : regex) : regex :=
  match n with
  | O => Star r
  | S n' => Seq r (AtLeast n' r)
  end.

Fixpoint nullable (r : regex) : bool :=
  match r with
  | Void => false
  | Eps => true
  | Class _ => false
  | Seq r1 r2 => nullable r1 && nullable r2
  | Alt r1 r2 => nullable r1 || nullable r2
  | Star _ => true
  end.

(** The residual of [r] after reading the code unit [c]. *)
Fixpoint deriv (c : char) (r : regex) : regex :=
  match r with
  | Void => Void
  | Eps => Void
  | Class p => if p c then Eps else Void
  | Seq r1 r2 =>
      if nullable r1
      then Alt (Seq (deriv c r1) r2) (deriv c r2)
      else Seq (deriv c r1) r2
  | Alt r1 r2 => Alt (deriv c r1) (deriv c r2)
  | Star r1 => Seq (deriv c r1) (Star r1)
  end.

(** [/^r$/.test(s)] on a string [s]. *)
Fixpoint test (r : regex) (s : jsstring) : bool :=
  match s with
  | [] => nullable r
  | c :: s' => test (deriv c r) s'
  end.

(** The language of a pattern, independently of the matcher. *)
Inductive Matches : regex -> jsstring -> Prop :=
| MEps : Matches Eps []
| MClass p c : p c = true -> Matches (Class p) [c]
| MSeq r1 r2 s1 s2 : Matches r1 s1 -> Matches r2 s2 -> Matches (Seq r1 r2) (s1 ++ s2)
| MAltL r1 r2 s : Matches r1 s -> Matches (Alt r1 r2) s
| MAltR r1 r2 s : Matches r2 s -> Matches (Alt r1 r2) s
| MStarNil r : Matches (Star r) []
| MStarApp r s1 s2 : Matches r s1 -> Matches (Star r) s2 -> Matches (Star r) (s1 ++ s2).

(** [/^[^\s@]+@[^\s@]+\.[^\s@]+$/] *)
Definition notSpaceAt (c : char) : bool := negb (is_space c) && negb (c =? at_sign).

Definition emailRegex : regex :=
  Seq (Plus (Class notSpaceAt))
   (Seq (Chr at_sign)
    (Seq (Plus (Class notSpaceAt))
     (Seq (Chr dot) (Plus (Class notSpaceAt))))).

(** [/^\+?[\d\s-()]{10,}$/]. Inside the class, [\s-(] has a class escape
    on the left of the hyphen, so without the [u] flag it is the union
    of [\s], the hyphen itself and the parenthesis. *)
Definition phoneClass (c : char) : bool :=
  is_digit c || is_space c || (c =? hyphen) || (c =? lparen) || (c =? rparen).

Definition phoneRegex : regex :=
  Seq (Opt (Chr plus_sign)) (AtLeast 10 (Class phoneClass)).


(** ** JavaScript values

    Request bodies come from [express.json()] (any JSON document) or,
    on the job-application route, from multer (strings, and arrays or
    prototype-less objects for bracketed field names). The servers do
    no arithmetic: they observe a number through its truthiness, its
    string conversion and equality only. So [JNum text] is a number
    given by the string that Number::toString renders for it: [5],
    [0.5], [1e+21], [Infinity], [NaN], and [0] for both zeros. Every
    number has one rendering, and two numbers with the same rendering
    are the same value. A text that renders no number stands for no
    value of a body; what holds of every text holds of every number.
    [JObj proto props] lists the own properties of
    an object, [proto] telling whether it inherits from
    [Object.prototype]. No value of a body is callable. *)

Inductive jsval : Type :=
| JUndefined : jsval
| JNull : jsval
| JBool (b : bool) : jsval
| JNum (text : jsstring) : jsval
| JStr (s : jsstring) : jsval
| JArr (items : list jsval) : jsval
| JObj (proto : bool) (props : list (jsstring * jsval)) : jsval.

(** Exceptions: the [TypeError]s raised by the language itself, and the
    errors with which the mail transporter rejects, carrying their
    [message]. *)
Inductive exn : Type :=
| TypeError : exn
| MailError (message : jsstring) : exn.

Inductive completion (A : Type) : Type :=
| Normal (a : A) : completion A
| Throw (e : exn) : completion A.
Arguments Normal {A} a.
Arguments Throw {A} e.

#[global] Instance completion_ret : MRet completion := @Normal.
#[global] Instance completion_bind : MBind completion :=
  fun A B f m => match m with Normal a => f a | Throw e => Throw e end.
#[global] Instance completion_fmap : FMap completion :=
  fun A B f m => match m with Normal a => Normal (f a) | Throw e => Throw e end.

(** ToBoolean *)
Definition truthy (v : jsval) : bool :=
  match v with
  | JUndefined | JNull => false
  | JBool b => b
  | JNum text => negb (bool_decide (text = lit "0") || bool_decide (text = lit "NaN"))
  | JStr s => negb (Nat.eqb (length s) 0)
  | JArr _ | JObj _ _ => true
  end.

Definition ownProp (key : jsstring) (props : list (jsstring * jsval)) : option jsval :=
  snd <$> List.find (fun kv => bool_decide (fst kv = key)) props.

(** [o.key] for the field names the servers read; none of them is a
    property of a prototype, so only own properties answer. *)
Definition getProp (o : jsval) (key : string) : completion jsval :=
  match o with
  | JUndefined | JNull => Throw TypeError
  | JObj _ props => Normal (default JUndefined (ownProp (lit key) props))
  | _ => Normal JUndefined
  end.

(** ToString. An array joins its elements with commas, [null] and
    [undefined] giving the empty string. An object answers through
    [Object.prototype.toString] unless it has no prototype or an own
    (never callable) [toString] shadows it; then no method yields a
    primitive and a [TypeError] is raised. *)
Fixpoint toString (v : jsval) : completion jsstring :=
  match v with
  | JUndefined => Normal (lit "undefined")
  | JNull => Normal (lit "null")
  | JBool b => Normal (lit (if b then "true" else "false"))
  | JNum text => Normal text
  | JStr s => Normal s
  | JArr items =>
      let element (x : jsval) : completion jsstring :=
        match x with
        | JUndefined | JNull => Normal []
        | _ => toString x
        end in
      (fix join (l : list jsval) : completion jsstring :=
         match l with
         | [] => Normal []
         | x :: l' =>
             e ← element x;
             match l' with
             | [] => Normal e
             | _ :: _ => r ← join l'; Normal (e ++ comma :: r)
             end
         end) items
  | JObj proto props =>
      if proto && negb (bool_decide (is_Some (ownProp (lit "toString") props)))
      then Normal (lit "[object Object]")
      else Throw TypeError
  end.

(** [v.trim()] *)
Definition callTrim (v : jsval) : completion jsstring :=
  match v with
  | JStr s => Normal (trim s)
  | _ => Throw TypeError
  end.

(** [v?.trim()] *)
Definition optTrim (v : jsval) : completion jsval :=
  match v with
  | JUndefined | JNull => Normal JUndefined
  | _ => s ← callTrim v; Normal (JStr s)
  end.

(** [v.replace(/\D/g, '')] *)
Definition callReplaceNonDigits (v : jsval) : completion jsstring :=
  match v with
  | JStr s => Normal (stripNonDigits s)
  | _ => Throw TypeError
  end.

(** [regex.test(v)] converts its argument with ToString first. *)
Definition regexTest (r : regex) (v : jsval) : completion bool :=
  s ← toString v; Normal (test r s).

(** [a || b], where only [b] can throw. *)
Definition orElse (a : bool) (b : completion bool) : completion bool :=
  if a then Normal true else b.

(** ** Validators *)

Record ValidationResult : Type := {
  isValid : bool;
  errors : gmap string string
}.

Definition objectKeys (o : gmap string string) : list string := (map_to_list o).*1.

Definition setIf (c : bool) (key message : string) (o : gmap string string) : gmap string string :=
  if c then <[key := message]> o else o.

Definition validateJobApplication (data : jsval) : completion ValidationResult :=
  let errors : gmap string string := ∅ in
  firstName ← getProp data "firstName";
  t ← optTrim firstName;
  let errors := setIf (negb (truthy t)) "firstName" "First name is required" errors in
  lastName ← getProp data "lastName";
  t ← optTrim lastName;
  let errors := setIf (negb (truthy t)) "lastName" "Last name is required" errors in
  email ← getProp data "email";
  bad ← orElse (negb (truthy email)) (negb <$> regexTest emailRegex email);
  let errors := setIf bad "email" "Valid email is required" errors in
  phone ← getProp data "phone";
  bad ← orElse (negb (truthy phone)) (negb <$> regexTest phoneRegex phone);
  let errors := setIf bad "phone" "Valid phone number is required" errors in
  Normal {| isValid := Nat.eqb (length (objectKeys errors)) 0; errors := errors |}.

(** [!v || v.trim().length < n] *)
Definition blankOrShorter (n : nat) (v : jsval) : completion bool :=
  orElse (negb (truthy v)) (s ← callTrim v; Normal (Nat.ltb (length s) n)).

(** The same function stands in both servers, character for character. *)
Definition validateFormInput (data : jsval) : completion ValidationResult :=
  let errors : gmap string string := ∅ in
  name ← getProp data "name";
  bad ← blankOrShorter 2 name;
  let errors := setIf bad "name" "Valid name is required" errors in
  email ← getProp data "email";
  bad ← orElse (negb (truthy email)) (negb <$> regexTest emailRegex email);
  let errors := setIf bad "email" "Valid email is required" errors in
  fullPhoneNumber ← getProp data "fullPhoneNumber";
  errors ←
    (if truthy fullPhoneNumber
     then
       cleanedPhone ← callReplaceNonDigits fullPhoneNumber;
       Normal (setIf (Nat.ltb (length cleanedPhone) 10 || Nat.ltb 15 (length cleanedPhone))
                 "phone" "Invalid phone number length" errors)
     else Normal errors);
  subject ← getProp data "subject";
  bad ← blankOrShorter 3 subject;
  let errors := setIf bad "subject" "Subject is required" errors in
  message ← getProp data "message";
  bad ← blankOrShorter 10 message;
  let errors := setIf bad "message" "Message must be at least 10 characters" errors in
  Normal {| isValid := Nat.eqb (length (objectKeys errors)) 0; errors := errors |}.

(** ** Requests, configuration and mail *)

(** [req.file] as multer leaves it after its size and type filter. *)
Record Upload : Type := {
  originalname : jsstring;
  buffer : list N;
  mimetype : jsstring
}.

Record Request : Type := {
  body : jsval;
  file : option Upload
}.

(** [process.env]: a variable is a string or is not set. *)
Record Env : Type := {
  EMAIL_USER : option jsstring;
  CLIENT_EMAIL : option jsstring;
  HR_EMAIL : option jsstring
}.

Definition envVal (x : option jsstring) : jsval :=
  match x with
  | Some s => JStr s
  | None => JUndefined
  end.

Record Attachment : Type := {
  filename : jsstring;
  content : list N;
  contentType : jsstring
}.

(** A message object handed to the transporter. [cc] is [None] when the
    object literal has no such property. [html] keeps, in order, the
    values interpolated into the fixed markup of the template. *)
Record OutboundEmail : Type := {
  from : jsstring;
  to : jsval;
  cc : option jsval;
  subject : jsstring;
  html : list jsstring;
  attachments : list Attachment
}.

(** The [${...}] holes of a template literal, left to right. *)
Fixpoint interpolate (vs : list jsval) : completion (list jsstring) :=
  match vs with
  | [] => Normal []
  | v :: vs' => s ← toString v; r ← interpolate vs'; Normal (s :: r)
  end.

(** A display name in double quotes, then the address in angle brackets. *)
Definition sender (display : string) (user : jsstring) : jsstring :=
  dquote :: lit display ++ dquote :: lit " <" ++ user ++ lit ">".

Inductive Json : Type :=
| Message (message : string) : Json
| Errors (fields : gmap string string) : Json
| Failure (message : string) (error : exn) : Json.

Record Response : Type := {
  status : nat;
  json : Json
}.

(** The promise returned by [transporter.sendMail]. *)
Inductive promise : Type :=
| Fulfilled : promise
| Rejected (message : jsstring) : promise.

(** The SMTP transporter: how the promise of a call settles, given the
    messages handed over before it, and which of two rejections reaches
    [Promise.all] first. *)
Record Transporter : Type := {
  sendMail : list OutboundEmail -> OutboundEmail -> promise;
  secondRejectsFirst : bool
}.

(** Handlers run over the list of messages dispatched so far. Console
    output is not kept. *)
Definition Handler (A : Type) : Type :=
  list OutboundEmail -> completion A * list OutboundEmail.

#[global] Instance Handler_ret : MRet Handler := fun A a log => (Normal a, log).
#[global] Instance Handler_bind : MBind Handler :=
  fun A B f m log =>
    match m log with
    | (Normal a, log') => f a log'
    | (Throw e, log') => (Throw e, log')
    end.

Definition liftC {A : Type} (c : completion A) : Handler A := fun log => (c, log).

Definition tryCatch {A : Type} (block : Handler A) (handler : exn -> Handler A) : Handler A :=
  fun log =>
    match block log with
    | (Normal a, log') => (Normal a, log')
    | (Throw e, log') => handler e log'
    end.

Section Routes.
Context (env : Env) (transporter : Transporter).

Definition callSendMail (m : OutboundEmail) : Handler promise :=
  fun log => (Normal (sendMail transporter log m), log ++ [m]).

(** [await Promise.all([p1, p2])] *)
Definition awaitAll (p1 p2 : promise) : Handler unit :=
  liftC
    match p1, p2 with
    | Fulfilled, Fulfilled => Normal tt
    | Rejected m, Fulfilled => Throw (MailError m)
    | Fulfilled, Rejected m => Throw (MailError m)
    | Rejected m1, Rejected m2 =>
        Throw (MailError (if secondRejectsFirst transporter then m2 else m1))
    end.

Definition mailOptions (firstName lastName email phone jobTitle jobLocation : jsval)
    (resume : Upload) : completion OutboundEmail :=
  user ← toString (envVal (EMAIL_USER env));
  jt ← toString jobTitle;
  jl ← toString jobLocation;
  fn ← toString firstName;
  ln ← toString lastName;
  h ← interpolate [firstName; lastName; email; phone; jobTitle; jobLocation];
  Normal {|
    from := sender "Job Application" user;
    to := envVal (CLIENT_EMAIL env);
    cc := Some (envVal (HR_EMAIL env));
    subject :=
      lit "Xemsoft | New Job Application | " ++ jt ++ lit " | " ++ jl
        ++ lit " - " ++ fn ++ lit " " ++ ln;
    html := h;
    attachments :=
      [ {| filename := originalname resume;
           content := buffer resume;
           contentType := mimetype resume |} ]
  |}.

Definition applicantMailOptions (firstName email jobTitle jobLocation : jsval)
    : completion OutboundEmail :=
  user ← toString (envVal (EMAIL_USER env));
  h ← interpolate [firstName; jobTitle; jobLocation];
  Normal {|
    from := sender "Xemsoft" user;
    to := email;
    cc := None;
    subject := lit "We've Received Your Job Application";
    html := h;
    attachments := []
  |}.

(** [app.post('/api/job-application', upload.single('resume'), ...)] *)
Definition jobApplication (req : Request) : Handler Response :=
  tryCatch
    (firstName ← liftC (getProp (body req) "firstName");
     lastName ← liftC (getProp (body req) "lastName");
     email ← liftC (getProp (body req) "email");
     phone ← liftC (getProp (body req) "phone");
     jobTitle ← liftC (getProp (body req) "jobTitle");
     jobLocation ← liftC (getProp (body req) "jobLocation");
     v ← liftC (validateJobApplication (body req));
     if negb (isValid v)
     then mret {| status := 400; json := Errors (errors v) |}
     else
       match file req with
       | None =>
           mret {| status := 400; json := Errors {[ "file" := "Resume is required" ]} |}
       | Some resume =>
           m1 ← liftC (mailOptions firstName lastName email phone jobTitle jobLocation resume);
           m2 ← liftC (applicantMailOptions firstName email jobTitle jobLocation);
           p1 ← callSendMail m1;
           p2 ← callSendMail m2;
           _ ← awaitAll p1 p2;
           mret {| status := 200;
                   json := Message "Application submitted successfully. We'll be in touch soon!" |}
       end)
    (fun error =>
       mret {| status := 500;
               json := Failure "Failed to submit application. Please try again later." error |}).

(** The notification of the contact form. The two-endpoint server sets
    [cc: process.env.HR_EMAIL]; [src/server.js] has no [cc] property.
    Nothing else differs between the two, so [hrCopy] tells them apart. *)
Definition clientMailOptionsOf (hrCopy : bool)
    (name email fullPhoneNumber subject message : jsval) : completion OutboundEmail :=
  user ← toString (envVal (EMAIL_USER env));
  s ← toString subject;
  h1 ← interpolate [name; email];
  h2 ← (if truthy fullPhoneNumber then interpolate [fullPhoneNumber] else Normal []);
  h3 ← interpolate [subject; message];
  Normal {|
    from := sender "Contact Form" user;
    to := envVal (CLIENT_EMAIL env);
    cc := if hrCopy then Some (envVal (HR_EMAIL env)) else None;
    subject := lit "Xemsoft | New Contact Form Submission: " ++ s;
    html := h1 ++ h2 ++ h3;
    attachments := []
  |}.

Definition userMailOptions (name email subject : jsval) : completion OutboundEmail :=
  user ← toString (envVal (EMAIL_USER env));
  h ← interpolate [name; subject];
  Normal {|
    from := sender "Xemsoft" user;
    to := email;
    cc := None;
    subject := lit "We've Received Your Message";
    html := h;
    attachments := []
  |}.

(** [app.post('/api/contact', ...)] *)
Definition contactOf (hrCopy : bool) (req : Request) : Handler Response :=
  tryCatch
    (v ← liftC (validateFormInput (body req));
     if negb (isValid v)
     then mret {| status := 400; json := Errors (errors v) |}
     else
       name ← liftC (getProp (body req) "name");
       email ← liftC (getProp (body req) "email");
       fullPhoneNumber ← liftC (getProp (body req) "fullPhoneNumber");
       subject ← liftC (getProp (body req) "subject");
       message ← liftC (getProp (body req) "message");
       m1 ← liftC (clientMailOptionsOf hrCopy name email fullPhoneNumber subject message);
       m2 ← liftC (userMailOptions name email subject);
       p1 ← callSendMail m1;
       p2 ← callSendMail m2;
       _ ← awaitAll p1 p2;
       mret {| status := 200;
               json := Message "Form submitted successfully. We'll be in touch soon!" |})
    (fun error =>
       mret {| status := 500;
               json := Failure "Failed to submit form. Please try again later." error |}).

(** The two-endpoint server. *)
Definition clientMailOptions := clientMailOptionsOf true.
Definition contact := contactOf true.

(** [src/server.js]. *)
Definition clientMailOptions_src := clientMailOptionsOf false.
Definition contact_src := contactOf false.
End Routes.

(** ** The rules in the words of the specification *)

(** A non-empty run of characters that are neither whitespace nor [@]. *)
Definition plainRun (s : jsstring) : Prop :=
  s <> [] /\ Forall (fun c => is_space c = false /\ c <> at_sign) s.

(** A run, [@], a run, [.], a run. *)
Definition emailPattern (s : jsstring) : Prop :=
  exists a b c, s = a ++ at_sign :: b ++ dot :: c /\ plainRun a /\ plainRun b /\ plainRun c.

(** An optional leading [+], then at least ten characters, each a digit,
    a space, a hyphen or a parenthesis. *)
Definition phoneSpaceChar (c : char) : Prop :=
  is_digit c = true \/ c = blank \/ c = hyphen \/ c = lparen \/ c = rparen.

Definition phoneSpacePattern (s : jsstring) : Prop :=
  exists digits, (s = digits \/ s = plus_sign :: digits)
    /\ (10 <= length digits)%nat /\ Forall phoneSpaceChar digits.

(** The same with any whitespace character in place of the space. *)
Definition phoneChar (c : char) : Prop :=
  is_digit c = true \/ is_space c = true \/ c = hyphen \/ c = lparen \/ c = rparen.

Definition phonePattern (s : jsstring) : Prop :=
  exists digits, (s = digits \/ s = plus_sign :: digits)
    /\ (10 <= length digits)%nat /\ Forall phoneChar digits.

(** The number of digits of a string is outside [10,15]. *)
Definition digitCountOutside (s : jsstring) : Prop :=
  (length (stripNonDigits s) < 10 \/ 15 < length (stripNonDigits s))%nat.

(** The value of a field of a body that is an object. *)
Definition field (data : jsval) (key : string) : jsval :=
  match getProp data key with
  | Normal v => v
  | Throw _ => JUndefined
  end.

(** A rule on a required field: a string value gets the entry [key]
    exactly when [violated] holds of it, and an absent field gets it. *)
Definition requiredRule (r : ValidationResult) (key : string) (v : jsval)
    (violated : jsstring -> Prop) : Prop :=
  (forall s, v = JStr s -> (is_Some (errors r !! key) <-> violated s))
  /\ (v = JUndefined -> is_Some (errors r !! key)).


(** A value that is truthy and is not a string. *)
Definition truthyNonString (v : jsval) : Prop :=
  truthy v = true /\ forall s, v <> JStr s.

(** A value that is a string or is absent. *)
Definition stringOrAbsent (v : jsval) : Prop :=
  v = JUndefined \/ exists s, v = JStr s.

(** How the two promises of a request settle: the first call sees the
    log as the handler found it, the second call sees the first message
    appended. *)
Definition firstPromise (t : Transporter) (log : list OutboundEmail) (m1 : OutboundEmail) : promise :=
  sendMail t log m1.
Definition secondPromise (t : Transporter) (log : list OutboundEmail) (m1 m2 : OutboundEmail) : promise :=
  sendMail t (log ++ [m1]) m2.

(** ** Sample requests *)

(** An object literal and a string literal of a JSON body. *)
Definition obj (l : list (string * jsval)) : jsval :=
  JObj true (map (fun kv => (lit (fst kv), snd kv)) l).
Definition str (s : string) : jsval := JStr (lit s).
(** A number literal of a JSON body, written as it renders. *)
Definition num (s : string) : jsval := JNum (lit s).

Definition goodJob : jsval :=
  obj [("firstName", str "Ann"); ("lastName", str "Lee"); ("email", str "a@b.com");
       ("phone", str "+1 (555) 123-4567"); ("jobTitle", str "Engineer");
       ("jobLocation", str "Pune")].

Definition goodContact : jsval :=
  obj [("name", str "Ann"); ("email", str "a@b.com");
       ("fullPhoneNumber", str "123-456-7890"); ("subject", str "Hello");
       ("message", str "A long enough message")].

Definition cv : Upload :=
  {| originalname := lit "cv.pdf"; buffer := [37; 80; 68; 70]; mimetype := lit "application/pdf" |}.

Definition sampleEnv : Env :=
  {| EMAIL_USER := Some (lit "noreply@xemsoft.example");
     CLIENT_EMAIL := Some (lit "client@xemsoft.example");
     HR_EMAIL := Some (lit "hr@xemsoft.example") |}.

(** A transporter that delivers everything, and one that rejects every
    acknowledgment, that is, every second call. *)
Definition delivering : Transporter :=
  {| sendMail := fun _ _ => Fulfilled; secondRejectsFirst := false |}.
Definition failingSecond : Transporter :=
  {| sendMail := fun log _ => match log with [] => Fulfilled | _ => Rejected (lit "ECONNREFUSED") end;
     secondRejectsFirst := false |}.

(** A phone number written with tabs between its groups. *)
Definition tabbedPhone : jsstring := lit "555" ++ 9 :: lit "123" ++ 9 :: lit "4567".

Definition tabbedJob : jsval :=
  obj [("firstName", str "Ann"); ("lastName", str "Lee"); ("email", str "a@b.com");
       ("phone", JStr tabbedPhone); ("jobTitle", str "Engineer");
       ("jobLocation", str "Pune")].

(** The class of the phone rule with the space alone, for deciding
    [phoneSpacePattern]. *)
Definition phoneSpaceClass (c : char) : bool :=
  is_digit c || (c =? blank) || (c =? hyphen) || (c =? lparen) || (c =? rparen).

(** A contact message whose optional phone field was left empty. *)
Definition emptyPhoneContact : jsval :=
  obj [("name", str "Ann"); ("email", str "a@b.com");
       ("fullPhoneNumber", JStr []); ("subject", str "Hello");
       ("message", str "A long enough message")].

(** The outcome of a request whose two messages [m1] and [m2] were both
    handed to the transporter: the log grows by exactly these two
    messages, the response is 200 exactly when both promises are
    fulfilled, and otherwise it is 500 with the message [failure] and the
    text of one of the rejections. *)
Definition dispatchedBoth (t : Transporter) (log : list OutboundEmail) (failure : string)
    (m1 m2 : OutboundEmail) (result : completion Response * list OutboundEmail) : Prop :=
  exists resp,
    result = (Normal resp, log ++ [m1; m2])
    /\ (status resp = 200%nat
        <-> firstPromise t log m1 = Fulfilled /\ secondPromise t log m1 m2 = Fulfilled)
    /\ (status resp = 200%nat -> exists text, json resp = Message text)
    /\ (status resp <> 200%nat ->
        status resp = 500%nat
        /\ exists text, json resp = Failure failure (MailError text)
             /\ (firstPromise t log m1 = Rejected text
                 \/ secondPromise t log m1 m2 = Rejected text)).

(** The settlement of [Promise.all] over two promises. *)
Definition settleAll (t : Transporter) (p1 p2 : promise) : completion unit :=
  fst (awaitAll t p1 p2 []).

Definition badRequest (fields : gmap string string) : Response :=
  {| status := 400; json := Errors fields |}.

Definition jobFailure (e : exn) : Response :=
  {| status := 500; json := Failure "Failed to submit application. Please try again later." e |}.

Definition contactFailure (e : exn) : Response :=
  {| status := 500; json := Failure "Failed to submit form. Please try again later." e |}.

Definition jobSuccess : Response :=
  {| status := 200; json := Message "Application submitted successfully. We'll be in touch soon!" |}.

Definition contactSuccess : Response :=
  {| status := 200; json := Message "Form submitted successfully. We'll be in touch soon!" |}.

(** After the two calls, the response depends on the promises alone. *)
Definition afterDispatch (t : Transporter) (log : list OutboundEmail) (m1 m2 : OutboundEmail)
    (success : Response) (failure : exn -> Response) : completion Response * list OutboundEmail :=
  match settleAll t (sendMail t log m1) (sendMail t (log ++ [m1]) m2) with
  | Normal _ => (Normal success, log ++ [m1; m2])
  | Throw e => (Normal (failure e), log ++ [m1; m2])
  end.

Definition goodJobNoFile : Request := {| body := goodJob; file := None |}.

(** Nothing but the job title filled in, with a resume attached. *)
Definition titleOnlyJob : jsval := obj [("jobTitle", str "Engineer")].

Definition allJobErrors : ValidationResult :=
  {| isValid := false;
     errors :=
       <["phone" := "Valid phone number is required"]>
         (<["email" := "Valid email is required"]>
            (<["lastName" := "Last name is required"]>
               (<["firstName" := "First name is required"]> ∅))) |}.


Definition allContactErrors : ValidationResult :=
  {| isValid := false;
     errors :=
       <["message" := "Message must be at least 10 characters"]>
         (<["subject" := "Subject is required"]>
            (<["email" := "Valid email is required"]>
               (<["name" := "Valid name is required"]> ∅))) |}.

Definition goodJobRequest : Request := {| body := goodJob; file := Some cv |}.
Definition goodContactRequest : Request := {| body := goodContact; file := None |}.

(** A job application in which the multipart field [jobTitle[toString]]
    replaces the plain [jobTitle]: the job title arrives as an object
    without prototype whose one property is no function. *)
Definition objectTitleJob : jsval :=
  obj [("firstName", str "Ann"); ("lastName", str "Lee"); ("email", str "a@b.com");
       ("phone", str "+1 (555) 123-4567");
       ("jobTitle", JObj false [(lit "toString", str "1")]);
       ("jobLocation", str "Pune")].
Definition objectTitleRequest : Request := {| body := objectTitleJob; file := Some cv |}.

(** A body all of whose fields are strings or absent. *)
Definition stringFields (data : jsval) : Prop :=
  forall key, exists v, getProp data key = Normal v /\ stringOrAbsent v.

(** Bodies with a number where a name is expected. *)
Definition numberNameJob : Request :=
  {| body := obj [("firstName", num "5"); ("lastName", str "Lee"); ("email", str "a@b.com");
                  ("phone", str "+1 (555) 123-4567")];
     file := Some cv |}.
Definition numberNameContact : Request :=
  {| body := obj [("name", num "5"); ("email", str "a@b.com"); ("subject", str "Hello");
                  ("message", str "A long enough message")];
     file := None |}.

(** ** The boundary: origins and uploads *)

(** What a middleware callback is told: [callback(null, true)], or
    [callback(new Error(message))]. *)
Inductive verdict : Type :=
| Pass : verdict
| Refuse (message : string) : verdict.

(** SameValueZero, the comparison of [Array.prototype.includes].
    Objects and arrays compare by identity, and none of them is an
    element of the lists of the source, so they are equal to no element. *)
Definition sameValueZero (a b : jsval) : bool :=
  match a, b with
  | JUndefined, JUndefined => true
  | JNull, JNull => true
  | JBool x, JBool y => Bool.eqb x y
  | JNum x, JNum y => bool_decide (x = y)
  | JStr x, JStr y => bool_decide (x = y)
  | _, _ => false
  end.

(** [a === b], the comparison of [Array.prototype.indexOf]: the same,
    except that [NaN] is not equal to itself. *)
Definition strictEquals (a b : jsval) : bool :=
  match a, b with
  | JNum x, JNum y => bool_decide (x = y) && negb (bool_decide (x = lit "NaN"))
  | _, _ => sameValueZero a b
  end.

(** [l.includes(v)] *)
Definition includes (l : list jsval) (v : jsval) : bool :=
  existsb (fun x => sameValueZero x v) l.

(** [l.indexOf(v)]: the first position of [v], or -1. *)
Fixpoint indexOf (l : list jsval) (v : jsval) : Z :=
  match l with
  | [] => (-1)%Z
  | x :: l' =>
      if strictEquals x v then 0%Z
      else
        let i := indexOf l' v in
        if (i =? -1)%Z then (-1)%Z else (i + 1)%Z
  end.

(** [corsOptions.origin] of the two-endpoint server; [frontendUrl] is
    [process.env.FRONTEND_URL]. *)
Definition corsOrigin (frontendUrl : option jsstring) (origin : jsval) : verdict :=
  let allowedOrigins :=
    [envVal frontendUrl; str "http://localhost:5173"; str "https://xs-gamma.vercel.app";
     JUndefined] in
  if negb (truthy origin) || includes allowedOrigins origin
  then Pass
  else Refuse "Not allowed by CORS".

(** [corsOptions.origin] of [src/server.js]. *)
Definition corsOrigin_src (origin : jsval) : verdict :=
  let allowedOrigins :=
    [str "http://localhost:5173"; str "https://your-production-frontend.com"; JUndefined] in
  if negb (truthy origin) || negb (indexOf allowedOrigins origin =? -1)%Z
  then Pass
  else Refuse "Not allowed by CORS".

(** The [fileFilter] of the multer configuration. It is called with the
    headers of the file part; of these it reads [mimetype] alone. *)
Definition fileFilter (file : Upload) : verdict :=
  let allowedTypes :=
    [str "application/pdf"; str "application/msword";
     str "application/vnd.openxmlformats-officedocument.wordprocessingml.document"] in
  if includes allowedTypes (JStr (mimetype file))
  then Pass
  else Refuse "Invalid file type. Only PDF and Word documents are allowed.".

(** ** Further vocabulary for the properties *)

Definition allSpace (s : jsstring) : Prop := Forall (fun c => is_space c = true) s.

(** A value passes a pattern rule: it is truthy and its string
    conversion is in the language. *)
Definition accepts (rx : regex) (v : jsval) : Prop :=
  truthy v = true /\ exists s, toString v = Normal s /\ test rx s = true.

(** A value is a string whose trimmed length is at least [n]. *)
Definition textOfLength (n : nat) (v : jsval) : Prop :=
  exists s, v = JStr s /\ (n <= length (trim s))%nat.

(** A value is neither [undefined] nor [null] nor a string. *)
Definition nonNullishNonString (v : jsval) : Prop :=
  v <> JUndefined /\ v <> JNull /\ forall s, v <> JStr s.

(** Every way a route can end, for a request that found the log [log]. *)
Definition routeOutcome (log : list OutboundEmail)
    (result : completion Response * list OutboundEmail) : Prop :=
  exists resp log',
    result = (Normal resp, log')
    /\ ((status resp = 400%nat
         /\ (exists fields, json resp = Errors fields /\ fields <> ∅)
         /\ log' = log)
        \/ (status resp = 500%nat
            /\ (exists text, json resp = Failure text TypeError)
            /\ log' = log)
        \/ (status resp = 500%nat
            /\ (exists text reason, json resp = Failure text (MailError reason))
            /\ exists m1 m2, log' = log ++ [m1; m2])
        \/ (status resp = 200%nat
            /\ (exists text, json resp = Message text)
            /\ exists m1 m2, log' = log ++ [m1; m2])).

(** A contact message whose name is a single letter between spaces. *)
Definition paddedNameContact : jsval :=
  obj [("name", JStr (lit "   " ++ lit "A" ++ lit "  ")); ("email", str "a@b.com");
       ("subject", str "Hello"); ("message", str "A long enough message")].

Definition nameErrorOnly : ValidationResult :=
  {| isValid := false; errors := <["name" := "Valid name is required"]> ∅ |}.

(** The optional phone of the contact form is in order: left out, or a
    string holding ten to fifteen digits. *)
Definition optionalDigits (v : jsval) : Prop :=
  truthy v = false
  \/ exists s, v = JStr s
       /\ (10 <= length (stripNonDigits s))%nat /\ (length (stripNonDigits s) <= 15)%nat.

Definition shortPhoneJob : jsval :=
  obj [("firstName", str "Ann"); ("lastName", str "Lee"); ("email", str "a@b.com");
       ("phone", str "12345")].
Definition jobPhoneErrorOnly : ValidationResult :=
  {| isValid := false; errors := <["phone" := "Valid phone number is required"]> ∅ |}.

Definition shortPhoneContact : jsval :=
  obj [("name", str "Ann"); ("email", str "a@b.com"); ("fullPhoneNumber", str "12345");
       ("subject", str "Hello"); ("message", str "A long enough message")].
Definition contactPhoneErrorOnly : ValidationResult :=
  {| isValid := false; errors := <["phone" := "Invalid phone number length"]> ∅ |}.

(** Bodies with the number 0 where a name is expected. *)
Definition zeroNameJob : Request :=
  {| body := obj [("firstName", num "0"); ("lastName", str "Lee"); ("email", str "a@b.com");
                  ("phone", str "+1 (555) 123-4567")];
     file := Some cv |}.
Definition zeroNameContact : Request :=
  {| body := obj [("name", num "0"); ("email", str "a@b.com"); ("subject", str "Hello");
                  ("message", str "A long enough message")];
     file := None |}.

(** A contact message whose phone is a JSON number. *)
Definition numberPhoneContact : Request :=
  {| body := obj [("name", str "Ann"); ("email", str "a@b.com");
                  ("fullPhoneNumber", num "1234567890"); ("subject", str "Hello");
                  ("message", str "A long enough message")];
     file := None |}.

(** A request whose body was never parsed, and one whose body is a JSON
    array. *)
Definition noBodyRequest : Request := {| body := JUndefined; file := None |}.
Definition arrayBodyRequest : Request := {| body := JArr [str "Ann"]; file := None |}.

(** An application that names no position, from an applicant whose first
    name came with a leading space. *)
Definition noTitleJob : Request :=
  {| body := obj [("firstName", str " Ann"); ("lastName", str "Lee");
                  ("email", str "a@b.com"); ("phone", str "+1 (555) 123-4567")];
     file := Some cv |}.

(** What the email rule decides for the string [s] in the result [r]. *)
Definition emailVerdict (r : ValidationResult) (s : jsstring) : Prop :=
  (errors r !! "email" = None <-> emailPattern s)
  /\ (s = lit "a@b.com" -> errors r !! "email" = None)
  /\ (s = lit "a@b" \/ s = lit "a.com" ->
      errors r !! "email" = Some "Valid email is required").

(** A body that serves both forms, with strings in all its fields. *)
Definition bothForms : jsval :=
  obj [("firstName", str "Ann"); ("lastName", str "Lee"); ("name", str "Ann Lee");
       ("email", str "a@b.com"); ("phone", str "+1 (555) 123-4567");
       ("subject", str "Hello"); ("message", str "A long enough message")].



(** * Properties *)

(** ** The model on a few inputs *)

Example trim_keeps_inner_space : trim (lit "  ab  c ") = lit "ab  c".
Proof. reflexivity. Qed.

Example stripNonDigits_phone : stripNonDigits (lit "+1 (555) 123-4567") = lit "15551234567".
Proof. reflexivity. Qed.

Example toString_array : toString (JArr [str "a"; JNull; num "3"]) = Normal (lit "a,,3").
Proof. reflexivity. Qed.

Example toString_number_as_rendered :
  toString (JArr [str "a@b"; num "1.5e+21"]) = Normal (lit "a@b,1.5e+21").
Proof. reflexivity. Qed.

Example exponent_number_is_no_phone : regexTest phoneRegex (num "1e+21") = Normal false.
Proof. reflexivity. Qed.

Example toString_plain_object : toString (obj []) = Normal (lit "[object Object]").
Proof. reflexivity. Qed.

Example good_job_is_accepted :
  exists m1 m2,
    jobApplication sampleEnv delivering goodJobRequest [] = (Normal jobSuccess, [m1; m2]).
Proof. do 2 eexists. vm_compute. reflexivity. Qed.

(** ** The matcher decides the language of a pattern *)

Lemma Matches_nil_nullable (r : regex) : Matches r [] <-> nullable r = true.
Proof.
  split.
  - intros H. remember [] as s eqn:Hs. induction H; simpl; auto; try discriminate.
    + apply app_eq_nil in Hs as [-> ->].
      rewrite IHMatches1, IHMatches2; auto.
    + rewrite IHMatches; auto.
    + rewrite IHMatches; auto using orb_true_r.
  - induction r; simpl; intros H; try discriminate.
    + constructor.
    + apply andb_true_iff in H as [H1 H2].
      change (@nil char) with (@nil char ++ []). constructor; auto.
    + apply orb_true_iff in H as [H|H]; [apply MAltL | apply MAltR]; auto.
    + constructor.
Qed.

Lemma deriv_sound (c : char) (r : regex) :
  forall s, Matches (deriv c r) s -> Matches r (c :: s).
Proof.
  induction r; simpl; intros s H.
  - inversion H.
  - inversion H.
  - destruct (p c) eqn:Hp; inversion H; subst. now constructor.
  - destruct (nullable r1) eqn:Hn.
    + inversion H; subst.
      * match goal with Hs : Matches (Seq _ _) _ |- _ => inversion Hs; subst end.
        change (c :: s1 ++ s2) with ((c :: s1) ++ s2). constructor; auto.
      * change (c :: s) with ([] ++ c :: s). constructor; auto.
        now apply Matches_nil_nullable.
    + inversion H; subst.
      change (c :: s1 ++ s2) with ((c :: s1) ++ s2). constructor; auto.
  - inversion H; subst; [apply MAltL | apply MAltR]; auto.
  - inversion H; subst.
    change (c :: s1 ++ s2) with ((c :: s1) ++ s2). constructor; auto.
Qed.

Lemma deriv_complete (c : char) (r : regex) (s : jsstring) :
  Matches r (c :: s) -> Matches (deriv c r) s.
Proof.
  intros H. remember (c :: s) as cs eqn:Hcs. revert s Hcs.
  induction H; intros s' Hcs; simpl; try discriminate.
  - injection Hcs as -> <-. rewrite H. constructor.
  - destruct s1 as [|c1 s1]; simpl in Hcs.
    + subst s2. apply Matches_nil_nullable in H as ->.
      apply MAltR; auto.
    + injection Hcs as -> <-.
      destruct (nullable r1); [apply MAltL |]; constructor; auto.
  - apply MAltL; auto.
  - apply MAltR; auto.
  - destruct s1 as [|c1 s1]; simpl in Hcs.
    + auto.
    + injection Hcs as -> <-. constructor; auto.
Qed.

Lemma test_Matches (r : regex) (s : jsstring) : test r s = true <-> Matches r s.
Proof.
  revert r. induction s as [|c s IH]; intros r; simpl.
  - symmetry. apply Matches_nil_nullable.
  - rewrite IH. split; [apply deriv_sound | apply deriv_complete].
Qed.

Lemma Matches_Seq_iff (r1 r2 : regex) (s : jsstring) :
  Matches (Seq r1 r2) s <-> exists s1 s2, s = s1 ++ s2 /\ Matches r1 s1 /\ Matches r2 s2.
Proof.
  split.
  - intros H. inversion H; subst. eauto.
  - intros (s1 & s2 & -> & H1 & H2). now constructor.
Qed.

Lemma Matches_Class_iff (p : char -> bool) (s : jsstring) :
  Matches (Class p) s <-> exists c, s = [c] /\ p c = true.
Proof.
  split.
  - intros H. inversion H; subst. eauto.
  - intros (c & -> & Hc). now constructor.
Qed.

Lemma Matches_Chr_iff (c : char) (s : jsstring) : Matches (Chr c) s <-> s = [c].
Proof.
  unfold Chr. rewrite Matches_Class_iff. split.
  - intros (c' & -> & Hc). apply N.eqb_eq in Hc. now subst.
  - intros ->. exists c. split; auto. apply N.eqb_refl.
Qed.

Lemma Matches_Star_Class (p : char -> bool) (s : jsstring) :
  Matches (Star (Class p)) s <-> Forall (fun c => p c = true) s.
Proof.
  split.
  - intros H. remember (Star (Class p)) as r eqn:Hr.
    induction H; try discriminate.
    + constructor.
    + injection Hr as ->. inversion H; subst. simpl. constructor; auto.
  - induction 1 as [|c s Hc _ IH].
    + constructor.
    + change (c :: s) with ([c] ++ s). constructor; auto. now constructor.
Qed.

Lemma Matches_Plus_Class (p : char -> bool) (s : jsstring) :
  Matches (Plus (Class p)) s <-> s <> [] /\ Forall (fun c => p c = true) s.
Proof.
  unfold Plus. rewrite Matches_Seq_iff. split.
  - intros (s1 & s2 & -> & H1 & H2).
    apply Matches_Class_iff in H1 as (c & -> & Hc).
    apply Matches_Star_Class in H2. split; [discriminate | now constructor].
  - intros [Hne H]. destruct H as [|c s Hc H]; [congruence |].
    exists [c], s. repeat split; [now constructor | now apply Matches_Star_Class].
Qed.

Lemma Matches_AtLeast_Class (p : char -> bool) (n : nat) (s : jsstring) :
  Matches (AtLeast n (Class p)) s <-> (n <= length s)%nat /\ Forall (fun c => p c = true) s.
Proof.
  revert s. induction n as [|n IH]; intros s; simpl.
  - rewrite Matches_Star_Class. split; [intros H; split; [lia | auto] | tauto].
  - rewrite Matches_Seq_iff. split.
    + intros (s1 & s2 & -> & H1 & H2).
      apply Matches_Class_iff in H1 as (c & -> & Hc).
      apply IH in H2 as [Hlen H2]. simpl. split; [lia | now constructor].
    + intros [Hlen H]. destruct H as [|c s Hc H]; simpl in Hlen; [lia |].
      exists [c], s. repeat split; [now constructor |]. apply IH. split; [lia | auto].
Qed.

Lemma notSpaceAt_iff (c : char) :
  notSpaceAt c = true <-> is_space c = false /\ c <> at_sign.
Proof.
  unfold notSpaceAt. rewrite andb_true_iff, !negb_true_iff, N.eqb_neq. tauto.
Qed.

Lemma plainRun_Matches (s : jsstring) :
  plainRun s <-> Matches (Plus (Class notSpaceAt)) s.
Proof.
  rewrite Matches_Plus_Class. unfold plainRun.
  split; intros [Hne H]; split; auto;
    (eapply Forall_impl; [exact H |]); intros c Hc; now apply notSpaceAt_iff.
Qed.

Lemma emailPattern_Matches (s : jsstring) : emailPattern s <-> Matches emailRegex s.
Proof.
  unfold emailPattern, emailRegex. split.
  - intros (a & b & c & -> & Ha & Hb & Hc).
    apply plainRun_Matches in Ha, Hb, Hc.
    constructor; auto.
    change (at_sign :: b ++ dot :: c) with ([at_sign] ++ b ++ [dot] ++ c).
    constructor; [now apply Matches_Chr_iff |].
    constructor; auto. constructor; [now apply Matches_Chr_iff | auto].
  - intros H.
    apply Matches_Seq_iff in H as (a & s1 & -> & Ha & H).
    apply Matches_Seq_iff in H as (x & s2 & -> & Hx & H).
    apply Matches_Seq_iff in H as (b & s3 & -> & Hb & H).
    apply Matches_Seq_iff in H as (y & c & -> & Hy & Hc).
    apply Matches_Chr_iff in Hx as ->. apply Matches_Chr_iff in Hy as ->.
    exists a, b, c. rewrite <- !plainRun_Matches in *. auto.
Qed.

Lemma emailPattern_test (s : jsstring) : emailPattern s <-> test emailRegex s = true.
Proof. rewrite test_Matches. apply emailPattern_Matches. Qed.

Lemma phoneClass_iff (c : char) : phoneClass c = true <-> phoneChar c.
Proof.
  unfold phoneClass, phoneChar.
  rewrite !orb_true_iff, !N.eqb_eq. tauto.
Qed.

(** An optional [+] followed by at least ten characters of a class. *)
Lemma optPlusRun_Matches (p : char -> bool) (P : char -> Prop) (s : jsstring) :
  (forall c, p c = true <-> P c) ->
  Matches (Seq (Opt (Chr plus_sign)) (AtLeast 10 (Class p))) s
  <-> exists digits, (s = digits \/ s = plus_sign :: digits)
        /\ (10 <= length digits)%nat /\ Forall P digits.
Proof.
  intros HpP. unfold Opt. rewrite Matches_Seq_iff. split.
  - intros (s1 & d & -> & H1 & Hd).
    apply Matches_AtLeast_Class in Hd as [Hlen Hd].
    exists d. repeat split; auto.
    + inversion H1; subst.
      * match goal with H : Matches Eps _ |- _ => inversion H; subst end. now left.
      * match goal with H : Matches (Chr _) _ |- _ => apply Matches_Chr_iff in H as -> end.
        now right.
    + eapply Forall_impl; [exact Hd |]. intros c Hc. now apply HpP.
  - intros (d & Hs & Hlen & Hd).
    assert (Matches (AtLeast 10 (Class p)) d) as Hm.
    { apply Matches_AtLeast_Class. split; auto.
      eapply Forall_impl; [exact Hd |]. intros c Hc. now apply HpP. }
    destruct Hs as [-> | ->].
    + exists [], d. repeat split; auto. apply MAltL. constructor.
    + exists [plus_sign], d. repeat split; auto. apply MAltR. now apply Matches_Chr_iff.
Qed.

Lemma phonePattern_Matches (s : jsstring) : phonePattern s <-> Matches phoneRegex s.
Proof. symmetry. apply optPlusRun_Matches, phoneClass_iff. Qed.

Lemma phonePattern_test (s : jsstring) : phonePattern s <-> test phoneRegex s = true.
Proof. rewrite test_Matches. apply phonePattern_Matches. Qed.

Lemma phoneSpaceClass_iff (c : char) : phoneSpaceClass c = true <-> phoneSpaceChar c.
Proof.
  unfold phoneSpaceClass, phoneSpaceChar.
  rewrite !orb_true_iff, !N.eqb_eq. tauto.
Qed.

Lemma phoneSpacePattern_test (s : jsstring) :
  phoneSpacePattern s
  <-> test (Seq (Opt (Chr plus_sign)) (AtLeast 10 (Class phoneSpaceClass))) s = true.
Proof.
  rewrite test_Matches. symmetry. apply optPlusRun_Matches, phoneSpaceClass_iff.
Qed.

(** ** The anatomy of the validators *)

Lemma bind_Normal_inv {A B : Type} (m : completion A) (f : A -> completion B) (b : B) :
  m ≫= f = Normal b -> exists a, m = Normal a /\ f a = Normal b.
Proof. destruct m as [a|e]; simpl; [eauto | discriminate]. Qed.

Lemma fmap_Normal_inv {A B : Type} (f : A -> B) (m : completion A) (b : B) :
  f <$> m = Normal b -> exists a, m = Normal a /\ b = f a.
Proof. destruct m as [a|e]; simpl; [intros [= <-]; eauto | discriminate]. Qed.

Ltac bind_inv H :=
  let a := fresh "x" in
  let Ha := fresh "E" in
  apply bind_Normal_inv in H as (a & Ha & H).

Lemma objectKeys_empty (m : gmap string string) :
  Nat.eqb (length (objectKeys m)) 0 = true <-> m = ∅.
Proof.
  unfold objectKeys. rewrite Nat.eqb_eq, length_fmap, length_zero_iff_nil.
  apply map_to_list_empty_iff.
Qed.

Lemma lookup_setIf_eq (c : bool) (k msg : string) (m : gmap string string) :
  setIf c k msg m !! k = if c then Some msg else m !! k.
Proof. destruct c; simpl; [apply lookup_insert_eq | reflexivity]. Qed.

Lemma lookup_setIf_ne (c : bool) (k k' msg : string) (m : gmap string string) :
  k <> k' -> setIf c k msg m !! k' = m !! k'.
Proof. intros Hne. destruct c; simpl; [now apply lookup_insert_ne | reflexivity]. Qed.

Lemma setIf_nonempty (c : bool) (k msg : string) (m : gmap string string) :
  setIf c k msg m = ∅ -> c = false /\ m = ∅.
Proof.
  destruct c; simpl; [| auto].
  intros H. now apply insert_non_empty in H.
Qed.

Lemma validateJobApplication_inv (data : jsval) (r : ValidationResult) :
  validateJobApplication data = Normal r ->
  exists fn ln em ph t1 t2 b3 b4,
    getProp data "firstName" = Normal fn /\ optTrim fn = Normal t1
    /\ getProp data "lastName" = Normal ln /\ optTrim ln = Normal t2
    /\ getProp data "email" = Normal em
    /\ orElse (negb (truthy em)) (negb <$> regexTest emailRegex em) = Normal b3
    /\ getProp data "phone" = Normal ph
    /\ orElse (negb (truthy ph)) (negb <$> regexTest phoneRegex ph) = Normal b4
    /\ errors r =
         setIf b4 "phone" "Valid phone number is required"
           (setIf b3 "email" "Valid email is required"
              (setIf (negb (truthy t2)) "lastName" "Last name is required"
                 (setIf (negb (truthy t1)) "firstName" "First name is required" ∅)))
    /\ isValid r = Nat.eqb (length (objectKeys (errors r))) 0.
Proof.
  unfold validateJobApplication. intros H.
  do 8 bind_inv H. injection H as <-. simpl.
  repeat eexists; eauto.
Qed.

Lemma validateFormInput_inv (data : jsval) (r : ValidationResult) :
  validateFormInput data = Normal r ->
  exists nm em ph sj msg b1 b2 b4 b5 (e3 : gmap string string),
    getProp data "name" = Normal nm /\ blankOrShorter 2 nm = Normal b1
    /\ getProp data "email" = Normal em
    /\ orElse (negb (truthy em)) (negb <$> regexTest emailRegex em) = Normal b2
    /\ getProp data "fullPhoneNumber" = Normal ph
    /\ (if truthy ph
        then
          cleanedPhone ← callReplaceNonDigits ph;
          Normal (setIf (Nat.ltb (length cleanedPhone) 10 || Nat.ltb 15 (length cleanedPhone))
                    "phone" "Invalid phone number length"
                    (setIf b2 "email" "Valid email is required"
                       (setIf b1 "name" "Valid name is required" ∅)))
        else Normal (setIf b2 "email" "Valid email is required"
                       (setIf b1 "name" "Valid name is required" ∅))) = Normal e3
    /\ getProp data "subject" = Normal sj /\ blankOrShorter 3 sj = Normal b4
    /\ getProp data "message" = Normal msg /\ blankOrShorter 10 msg = Normal b5
    /\ errors r =
         setIf b5 "message" "Message must be at least 10 characters"
           (setIf b4 "subject" "Subject is required" e3)
    /\ isValid r = Nat.eqb (length (objectKeys (errors r))) 0.
Proof.
  unfold validateFormInput. intros H.
  do 10 bind_inv H. injection H as <-. simpl.
  repeat eexists; eauto.
Qed.

(** ** The result of a validator *)

Lemma validators_isValid (data : jsval) (r : ValidationResult) :
  validateJobApplication data = Normal r \/ validateFormInput data = Normal r ->
  isValid r = Nat.eqb (length (objectKeys (errors r))) 0.
Proof.
  intros [H | H].
  - now apply validateJobApplication_inv in H
      as (? & ? & ? & ? & ? & ? & ? & ? & _ & _ & _ & _ & _ & _ & _ & _ & _ & ->).
  - now apply validateFormInput_inv in H
      as (? & ? & ? & ? & ? & ? & ? & ? & ? & ? & _ & _ & _ & _ & _ & _ & _ & _ & _ & _ & _ & ->).
Qed.

Lemma validators_entry_invalid (data : jsval) (r : ValidationResult) (k : string) :
  validateJobApplication data = Normal r \/ validateFormInput data = Normal r ->
  is_Some (errors r !! k) -> isValid r = false.
Proof.
  intros H [x Hx]. rewrite (validators_isValid _ _ H).
  apply not_true_iff_false. rewrite objectKeys_empty. intros He.
  rewrite He, lookup_empty in Hx. discriminate.
Qed.

(** C2. Whatever the payload, the result returned by either validator
    has [isValid] true exactly when its [errors] mapping is empty. *)
Theorem isValid_iff_errors_empty (data : jsval) (r : ValidationResult) :
  validateJobApplication data = Normal r \/ validateFormInput data = Normal r ->
  (isValid r = true <-> errors r = ∅).
Proof.
  intros H. rewrite (validators_isValid _ _ H). apply objectKeys_empty.
Qed.

Lemma isValid_iff_errors_empty_witness :
  validateJobApplication goodJob = Normal {| isValid := true; errors := ∅ |}
  /\ (isValid {| isValid := true; errors := ∅ |} = true
      <-> errors {| isValid := true; errors := ∅ |} = ∅).
Proof.
  split; [vm_compute; reflexivity |].
  apply (isValid_iff_errors_empty goodJob). left. vm_compute. reflexivity.
Defined.

Ltac lookup_setIf :=
  repeat first
    [ rewrite lookup_setIf_eq
    | rewrite lookup_setIf_ne by discriminate ];
  rewrite ?lookup_empty.

(** The test of a string field against a pattern that rejects the empty
    string: the truthiness guard adds nothing. *)
Lemma patternRule_str (rx : regex) (s : jsstring) :
  nullable rx = false ->
  orElse (negb (truthy (JStr s))) (negb <$> regexTest rx (JStr s))
  = Normal (negb (test rx s)).
Proof.
  intros Hn. destruct s as [|c s]; simpl; [now rewrite Hn | reflexivity].
Qed.

Lemma validateJobApplication_email (data : jsval) (r : ValidationResult) (em : jsval) :
  validateJobApplication data = Normal r ->
  getProp data "email" = Normal em ->
  exists b, orElse (negb (truthy em)) (negb <$> regexTest emailRegex em) = Normal b
    /\ errors r !! "email" = if b then Some "Valid email is required" else None.
Proof.
  intros H Hem.
  apply validateJobApplication_inv in H
    as (fn & ln & em' & ph & t1 & t2 & b3 & b4 & _ & _ & _ & _ & Hem' & Hb3 & _ & _ & -> & _).
  rewrite Hem in Hem'. injection Hem' as <-.
  exists b3. split; [assumption |]. now lookup_setIf.
Qed.

Lemma validateFormInput_phone_entry (ph : jsval) (m e3 : gmap string string) (k : string) :
  (if truthy ph
   then
     cleanedPhone ← callReplaceNonDigits ph;
     Normal (setIf (Nat.ltb (length cleanedPhone) 10 || Nat.ltb 15 (length cleanedPhone))
               "phone" "Invalid phone number length" m)
   else Normal m) = Normal e3 ->
  k <> "phone" -> e3 !! k = m !! k.
Proof.
  intros H Hk. destruct (truthy ph).
  - bind_inv H. injection H as <-. now rewrite lookup_setIf_ne.
  - now injection H as <-.
Qed.

Lemma validateFormInput_email (data : jsval) (r : ValidationResult) (em : jsval) :
  validateFormInput data = Normal r ->
  getProp data "email" = Normal em ->
  exists b, orElse (negb (truthy em)) (negb <$> regexTest emailRegex em) = Normal b
    /\ errors r !! "email" = if b then Some "Valid email is required" else None.
Proof.
  intros H Hem.
  apply validateFormInput_inv in H
    as (nm & em' & ph & sj & msg & b1 & b2 & b4 & b5 & e3
        & _ & _ & Hem' & Hb2 & _ & He3 & _ & _ & _ & _ & -> & _).
  rewrite Hem in Hem'. injection Hem' as <-.
  exists b2. split; [assumption |]. lookup_setIf.
  rewrite (validateFormInput_phone_entry _ _ _ "email" He3) by discriminate.
  now lookup_setIf.
Qed.

(** ** The phone rule of the job application *)

Lemma validateJobApplication_phone (data : jsval) (r : ValidationResult) (ph : jsval) :
  validateJobApplication data = Normal r ->
  getProp data "phone" = Normal ph ->
  exists b, orElse (negb (truthy ph)) (negb <$> regexTest phoneRegex ph) = Normal b
    /\ errors r !! "phone" = if b then Some "Valid phone number is required" else None.
Proof.
  intros H Hph.
  apply validateJobApplication_inv in H
    as (fn & ln & em & ph' & t1 & t2 & b3 & b4 & _ & _ & _ & _ & _ & _ & Hph' & Hb4 & -> & _).
  rewrite Hph in Hph'. injection Hph' as <-.
  exists b4. split; [assumption |]. now lookup_setIf.
Qed.

(** C6, as the code has it. For every string supplied as the phone
    field of a job application, the validator leaves the [phone] entry
    out exactly when the string is an optional leading [+] followed by at
    least ten characters, each a digit, a whitespace character, a hyphen
    or a parenthesis; [+1 (555) 123-4567] is accepted and [abc] gets the
    phone error. *)
Theorem phone_accepted_iff_pattern (data : jsval) (r : ValidationResult) (s : jsstring) :
  getProp data "phone" = Normal (JStr s) ->
  validateJobApplication data = Normal r ->
  (errors r !! "phone" = None <-> phonePattern s)
  /\ (s = lit "+1 (555) 123-4567" -> errors r !! "phone" = None)
  /\ (s = lit "abc" -> errors r !! "phone" = Some "Valid phone number is required").
Proof.
  intros Hph H.
  apply validateJobApplication_phone with (ph := JStr s) in H as (b & Hb & ->); auto.
  rewrite patternRule_str in Hb by reflexivity. injection Hb as <-.
  repeat split.
  - rewrite phonePattern_test. destruct (test phoneRegex s); simpl; [auto | discriminate].
  - rewrite phonePattern_test. intros ->. reflexivity.
  - intros ->. vm_compute. reflexivity.
  - intros ->. reflexivity.
Qed.

Lemma phone_accepted_iff_pattern_witness :
  getProp goodJob "phone" = Normal (JStr (lit "+1 (555) 123-4567"))
  /\ validateJobApplication goodJob = Normal {| isValid := true; errors := ∅ |}
  /\ (errors {| isValid := true; errors := ∅ |} !! "phone" = None
      <-> phonePattern (lit "+1 (555) 123-4567")).
Proof.
  split; [reflexivity |]. split; [vm_compute; reflexivity |].
  apply (phone_accepted_iff_pattern goodJob); [reflexivity |].
  vm_compute. reflexivity.
Defined.

(** C6, as stated, fails: a number whose groups are separated by tabs is
    accepted although a tab is none of digit, space, hyphen and
    parenthesis. *)
Lemma phone_space_pattern_counterexample :
  getProp tabbedJob "phone" = Normal (JStr tabbedPhone)
  /\ validateJobApplication tabbedJob = Normal {| isValid := true; errors := ∅ |}
  /\ ~ (errors {| isValid := true; errors := ∅ |} !! "phone" = None
        <-> phoneSpacePattern tabbedPhone).
Proof.
  split; [reflexivity |]. split; [vm_compute; reflexivity |].
  intros [H _]. specialize (H eq_refl).
  apply phoneSpacePattern_test in H. vm_compute in H. discriminate.
Qed.

(** ** The optional phone rule of the contact form *)

Lemma validateFormInput_phone (data : jsval) (r : ValidationResult) (ph : jsval) :
  validateFormInput data = Normal r ->
  getProp data "fullPhoneNumber" = Normal ph ->
  if truthy ph
  then exists cleanedPhone,
      callReplaceNonDigits ph = Normal cleanedPhone
      /\ errors r !! "phone" =
           if Nat.ltb (length cleanedPhone) 10 || Nat.ltb 15 (length cleanedPhone)
           then Some "Invalid phone number length" else None
  else errors r !! "phone" = None.
Proof.
  intros H Hph.
  apply validateFormInput_inv in H
    as (nm & em & ph' & sj & msg & b1 & b2 & b4 & b5 & e3
        & _ & _ & _ & _ & Hph' & He3 & _ & _ & _ & _ & -> & _).
  rewrite Hph in Hph'. injection Hph' as <-.
  lookup_setIf. destruct (truthy ph).
  - bind_inv He3. injection He3 as <-. exists x. split; [assumption |]. now lookup_setIf.
  - injection He3 as <-. now lookup_setIf.
Qed.

Lemma digitCountOutside_ltb (s : jsstring) :
  digitCountOutside s
  <-> Nat.ltb (length (stripNonDigits s)) 10 || Nat.ltb 15 (length (stripNonDigits s)) = true.
Proof.
  unfold digitCountOutside. rewrite orb_true_iff, !Nat.ltb_lt. tauto.
Qed.

(** C7, as the code has it. The [fullPhoneNumber] field of a contact
    message is optional: absent or empty, it records no phone error; a
    non-empty string is stripped of its non-digit characters and gets the
    phone error exactly when the number of digits left is outside
    [10,15]. [123-456-7890] is accepted, [12345] is rejected, and so is
    every string with sixteen digits or more. *)
Theorem contact_phone_rule (data : jsval) (r : ValidationResult) (v : jsval) :
  getProp data "fullPhoneNumber" = Normal v ->
  validateFormInput data = Normal r ->
  (v = JUndefined \/ v = JStr [] -> errors r !! "phone" = None)
  /\ (forall s, v = JStr s -> s <> [] ->
        (errors r !! "phone" = Some "Invalid phone number length" <-> digitCountOutside s)
        /\ (errors r !! "phone" = None <-> ~ digitCountOutside s))
  /\ (v = str "123-456-7890" -> errors r !! "phone" = None)
  /\ (v = str "12345" -> errors r !! "phone" = Some "Invalid phone number length")
  /\ (forall s, v = JStr s -> (16 <= length (stripNonDigits s))%nat ->
        errors r !! "phone" = Some "Invalid phone number length").
Proof.
  intros Hv H. pose proof (validateFormInput_phone _ _ _ H Hv) as Hp.
  assert (forall s, v = JStr s -> s <> [] ->
            errors r !! "phone" =
              if Nat.ltb (length (stripNonDigits s)) 10 || Nat.ltb 15 (length (stripNonDigits s))
              then Some "Invalid phone number length" else None) as Hstr.
  { intros s -> Hs. destruct s as [|c s]; [congruence |]. simpl in Hp.
    destruct Hp as (cl & [= <-] & Hp). exact Hp. }
  split; [intros [-> | ->]; exact Hp |].
  split; [| repeat split].
  - intros s -> Hs. rewrite (Hstr s) by auto. rewrite digitCountOutside_ltb.
    destruct (_ || _); intuition congruence.
  - intros ->. rewrite (Hstr (lit "123-456-7890")); [reflexivity | reflexivity | discriminate].
  - intros ->. rewrite (Hstr (lit "12345")); [reflexivity | reflexivity | discriminate].
  - intros s -> Hlen. rewrite (Hstr s); auto.
    + assert (Nat.ltb 15 (length (stripNonDigits s)) = true) as ->
          by (apply Nat.ltb_lt; lia).
      now rewrite orb_true_r.
    + intros ->. simpl in Hlen. lia.
Qed.

Lemma contact_phone_rule_witness :
  getProp goodContact "fullPhoneNumber" = Normal (str "123-456-7890")
  /\ validateFormInput goodContact = Normal {| isValid := true; errors := ∅ |}
  /\ errors {| isValid := true; errors := ∅ |} !! "phone" = None.
Proof.
  split; [reflexivity |]. split; [vm_compute; reflexivity |].
  refine (proj1 (proj2 (proj2
    (contact_phone_rule goodContact {| isValid := true; errors := ∅ |}
       (str "123-456-7890") _ _))) eq_refl).
  - reflexivity.
  - vm_compute. reflexivity.
Defined.

(** C7, as stated, fails: an empty [fullPhoneNumber] is present, its
    digit count 0 is outside [10,15], and yet no phone error is
    recorded. *)
Lemma contact_phone_present_counterexample :
  getProp emptyPhoneContact "fullPhoneNumber" = Normal (JStr [])
  /\ validateFormInput emptyPhoneContact = Normal {| isValid := true; errors := ∅ |}
  /\ ~ (is_Some (errors {| isValid := true; errors := ∅ |} !! "phone")
        <-> digitCountOutside []).
Proof.
  split; [reflexivity |]. split; [vm_compute; reflexivity |].
  intros [_ H]. destruct H as [x Hx].
  - left. simpl. lia.
  - simpl in Hx. rewrite lookup_empty in Hx. discriminate.
Qed.

(** ** Every rule reports on its own *)

Lemma field_getProp (data : jsval) (key : string) (v : jsval) :
  getProp data key = Normal v -> field data key = v.
Proof. unfold field. now intros ->. Qed.

Lemma validateJobApplication_names (data : jsval) (r : ValidationResult) :
  validateJobApplication data = Normal r ->
  exists t1 t2,
    optTrim (field data "firstName") = Normal t1
    /\ optTrim (field data "lastName") = Normal t2
    /\ errors r !! "firstName" = (if negb (truthy t1) then Some "First name is required" else None)
    /\ errors r !! "lastName" = (if negb (truthy t2) then Some "Last name is required" else None).
Proof.
  intros H.
  apply validateJobApplication_inv in H
    as (fn & ln & em & ph & t1 & t2 & b3 & b4 & Hfn & Ht1 & Hln & Ht2 & _ & _ & _ & _ & -> & _).
  exists t1, t2. rewrite (field_getProp _ _ _ Hfn), (field_getProp _ _ _ Hln).
  repeat split; auto; now lookup_setIf.
Qed.

Lemma validateFormInput_texts (data : jsval) (r : ValidationResult) :
  validateFormInput data = Normal r ->
  exists b1 b4 b5,
    blankOrShorter 2 (field data "name") = Normal b1
    /\ blankOrShorter 3 (field data "subject") = Normal b4
    /\ blankOrShorter 10 (field data "message") = Normal b5
    /\ errors r !! "name" = (if b1 then Some "Valid name is required" else None)
    /\ errors r !! "subject" = (if b4 then Some "Subject is required" else None)
    /\ errors r !! "message"
       = (if b5 then Some "Message must be at least 10 characters" else None).
Proof.
  intros H.
  apply validateFormInput_inv in H
    as (nm & em & ph & sj & msg & b1 & b2 & b4 & b5 & e3
        & Hnm & Hb1 & _ & _ & _ & He3 & Hsj & Hb4 & Hmsg & Hb5 & -> & _).
  exists b1, b4, b5.
  rewrite (field_getProp _ _ _ Hnm), (field_getProp _ _ _ Hsj), (field_getProp _ _ _ Hmsg).
  repeat split; auto; lookup_setIf;
    rewrite (validateFormInput_phone_entry _ _ _ _ He3) by discriminate;
    now lookup_setIf.
Qed.

Lemma blankOrShorter_str (n : nat) (s : jsstring) :
  (0 < n)%nat -> blankOrShorter n (JStr s) = Normal (Nat.ltb (length (trim s)) n).
Proof.
  intros Hn. destruct s as [|c s]; [| reflexivity].
  unfold blankOrShorter. simpl. f_equal. symmetry. now apply Nat.ltb_lt.
Qed.

Lemma is_Some_if (b : bool) (x : string) : is_Some (if b then Some x else None) <-> b = true.
Proof.
  destruct b; split; intros H; auto; try discriminate.
  destruct H as [? H]. discriminate.
Qed.

Lemma requiredTrimmed_rule (r : ValidationResult) (key msg : string) (v t : jsval) :
  optTrim v = Normal t ->
  errors r !! key = (if negb (truthy t) then Some msg else None) ->
  requiredRule r key v (fun s => trim s = []).
Proof.
  intros Ht Hk. unfold requiredRule. rewrite Hk. split.
  - intros s ->. injection Ht as <-. rewrite is_Some_if. simpl.
    rewrite negb_involutive, Nat.eqb_eq. apply length_zero_iff_nil.
  - intros ->. injection Ht as <-. eexists; reflexivity.
Qed.

Lemma requiredLength_rule (r : ValidationResult) (key msg : string) (n : nat) (v : jsval) (b : bool) :
  (0 < n)%nat ->
  blankOrShorter n v = Normal b ->
  errors r !! key = (if b then Some msg else None) ->
  requiredRule r key v (fun s => (length (trim s) < n)%nat).
Proof.
  intros Hn Hb Hk. unfold requiredRule. rewrite Hk. split.
  - intros s ->. rewrite blankOrShorter_str in Hb by assumption.
    injection Hb as <-. rewrite is_Some_if. apply Nat.ltb_lt.
  - intros ->. injection Hb as <-. eexists; reflexivity.
Qed.



(** ** The handlers, path by path *)

Lemma getProp_total (o : jsval) (k k' : string) (v : jsval) :
  getProp o k = Normal v -> getProp o k' = Normal (field o k').
Proof.
  unfold field. destruct o; simpl; try discriminate; reflexivity.
Qed.

Lemma getProp_Throw (o : jsval) (k k' : string) (e : exn) :
  getProp o k = Throw e -> e = TypeError /\ getProp o k' = Throw TypeError.
Proof.
  destruct o; simpl; try discriminate; intros [= <-]; auto.
Qed.

Lemma awaitAll_log (t : Transporter) (p1 p2 : promise) (log : list OutboundEmail) :
  awaitAll t p1 p2 log = (settleAll t p1 p2, log).
Proof. reflexivity. Qed.

Lemma jobApplication_validated (env : Env) (t : Transporter) (req : Request)
    (r : ValidationResult) (log : list OutboundEmail) :
  validateJobApplication (body req) = Normal r ->
  jobApplication env t req log =
    if negb (isValid r) then (Normal (badRequest (errors r)), log)
    else
      match file req with
      | None => (Normal (badRequest {[ "file" := "Resume is required" ]}), log)
      | Some resume =>
          match mailOptions env (field (body req) "firstName") (field (body req) "lastName")
                  (field (body req) "email") (field (body req) "phone")
                  (field (body req) "jobTitle") (field (body req) "jobLocation") resume with
          | Throw e => (Normal (jobFailure e), log)
          | Normal m1 =>
              match applicantMailOptions env (field (body req) "firstName")
                      (field (body req) "email") (field (body req) "jobTitle")
                      (field (body req) "jobLocation") with
              | Throw e => (Normal (jobFailure e), log)
              | Normal m2 => afterDispatch t log m1 m2 jobSuccess jobFailure
              end
          end
      end.
Proof.
  intros Hv. pose proof Hv as Hinv.
  apply validateJobApplication_inv in Hinv as (fn & ? & ? & ? & ? & ? & ? & ? & Hfn & _).
  unfold jobApplication, tryCatch, mbind, Handler_bind, liftC, mret, Handler_ret.
  rewrite !(getProp_total _ _ _ _ Hfn), Hv.
  destruct (negb (isValid r)); [reflexivity |].
  destruct (file req) as [resume|]; [| reflexivity].
  destruct (mailOptions _ _ _ _ _ _ _ _) as [m1|e]; [| reflexivity].
  destruct (applicantMailOptions _ _ _ _ _) as [m2|e]; [| reflexivity].
  unfold callSendMail, afterDispatch. rewrite awaitAll_log, <- app_assoc. simpl.
  destruct (settleAll _ _ _); reflexivity.
Qed.

Lemma jobApplication_thrown (env : Env) (t : Transporter) (req : Request)
    (e : exn) (log : list OutboundEmail) :
  validateJobApplication (body req) = Throw e ->
  jobApplication env t req log = (Normal (jobFailure e), log).
Proof.
  intros Hv.
  unfold jobApplication, tryCatch, mbind, Handler_bind, liftC, mret, Handler_ret.
  destruct (getProp (body req) "firstName") as [fn|e'] eqn:Hfn.
  - rewrite !(getProp_total _ _ _ _ Hfn), Hv. reflexivity.
  - unfold validateJobApplication in Hv. rewrite Hfn in Hv. simpl in Hv. now injection Hv as ->.
Qed.

Lemma contactOf_validated (env : Env) (t : Transporter) (hrCopy : bool) (req : Request)
    (r : ValidationResult) (log : list OutboundEmail) :
  validateFormInput (body req) = Normal r ->
  contactOf env t hrCopy req log =
    if negb (isValid r) then (Normal (badRequest (errors r)), log)
    else
      match clientMailOptionsOf env hrCopy (field (body req) "name") (field (body req) "email")
              (field (body req) "fullPhoneNumber") (field (body req) "subject")
              (field (body req) "message") with
      | Throw e => (Normal (contactFailure e), log)
      | Normal m1 =>
          match userMailOptions env (field (body req) "name") (field (body req) "email")
                  (field (body req) "subject") with
          | Throw e => (Normal (contactFailure e), log)
          | Normal m2 => afterDispatch t log m1 m2 contactSuccess contactFailure
          end
      end.
Proof.
  intros Hv. pose proof Hv as Hinv.
  apply validateFormInput_inv in Hinv as (nm & ? & ? & ? & ? & ? & ? & ? & ? & ? & Hnm & _).
  unfold contactOf, tryCatch, mbind, Handler_bind, liftC, mret, Handler_ret.
  rewrite Hv. destruct (negb (isValid r)); [reflexivity |].
  rewrite !(getProp_total _ _ _ _ Hnm).
  destruct (clientMailOptionsOf _ _ _ _ _ _ _) as [m1|e]; [| reflexivity].
  destruct (userMailOptions _ _ _ _) as [m2|e]; [| reflexivity].
  unfold callSendMail, afterDispatch. rewrite awaitAll_log, <- app_assoc. simpl.
  destruct (settleAll _ _ _); reflexivity.
Qed.

Lemma contactOf_thrown (env : Env) (t : Transporter) (hrCopy : bool) (req : Request)
    (e : exn) (log : list OutboundEmail) :
  validateFormInput (body req) = Throw e ->
  contactOf env t hrCopy req log = (Normal (contactFailure e), log).
Proof.
  intros Hv.
  unfold contactOf, tryCatch, mbind, Handler_bind, liftC, mret, Handler_ret.
  now rewrite Hv.
Qed.

(** ** Rejection *)

Lemma validateJobApplication_no_file_entry (data : jsval) (r : ValidationResult) :
  validateJobApplication data = Normal r -> errors r !! "file" = None.
Proof.
  intros H.
  apply validateJobApplication_inv in H
    as (? & ? & ? & ? & ? & ? & ? & ? & _ & _ & _ & _ & _ & _ & _ & _ & -> & _).
  now lookup_setIf.
Qed.

Lemma validators_invalid_nonempty (data : jsval) (r : ValidationResult) :
  validateJobApplication data = Normal r \/ validateFormInput data = Normal r ->
  isValid r = false -> errors r <> ∅.
Proof.
  intros H Hf He. rewrite (validators_isValid _ _ H) in Hf.
  apply objectKeys_empty in He. congruence.
Qed.

(** C5. On the job-application path the missing-attachment check comes
    after field validation: valid fields without a resume give a 400
    whose errors mapping holds the key [file] and no other, while field
    errors give a 400 with exactly these field errors, none of them under
    the key [file], whether or not a resume is attached. *)
Theorem missing_file_checked_after_fields (env : Env) (t : Transporter) (req : Request)
    (r : ValidationResult) (log : list OutboundEmail) :
  validateJobApplication (body req) = Normal r ->
  (isValid r = true -> file req = None ->
     exists fields,
       jobApplication env t req log = (Normal {| status := 400; json := Errors fields |}, log)
       /\ fields !! "file" = Some "Resume is required"
       /\ forall k, is_Some (fields !! k) <-> k = "file")
  /\ (isValid r = false ->
        jobApplication env t req log
        = (Normal {| status := 400; json := Errors (errors r) |}, log)
        /\ errors r !! "file" = None
        /\ errors r <> ∅).
Proof.
  intros Hv. rewrite (jobApplication_validated _ _ _ _ _ Hv). split.
  - intros -> ->. simpl. eexists. split; [reflexivity |]. split.
    + apply lookup_singleton_eq.
    + intros k. rewrite lookup_singleton_is_Some. split; congruence.
  - intros Hf. rewrite Hf. simpl. split; [reflexivity |]. split.
    + eapply validateJobApplication_no_file_entry; eauto.
    + eapply validators_invalid_nonempty; eauto.
Qed.

Lemma missing_file_checked_after_fields_witness :
  validateJobApplication (body goodJobNoFile) = Normal {| isValid := true; errors := ∅ |}
  /\ exists fields,
       jobApplication sampleEnv delivering goodJobNoFile []
       = (Normal {| status := 400; json := Errors fields |}, [])
       /\ fields !! "file" = Some "Resume is required"
       /\ forall k, is_Some (fields !! k) <-> k = "file".
Proof.
  assert (validateJobApplication (body goodJobNoFile)
          = Normal {| isValid := true; errors := ∅ |}) as Hv by (vm_compute; reflexivity).
  split; [exact Hv |].
  exact (proj1 (missing_file_checked_after_fields sampleEnv delivering goodJobNoFile
                  _ [] Hv) eq_refl eq_refl).
Defined.



(** ** Dispatch *)

Lemma validators_valid_empty (data : jsval) (r : ValidationResult) :
  validateJobApplication data = Normal r \/ validateFormInput data = Normal r ->
  isValid r = true -> errors r = ∅.
Proof.
  intros H Hval. rewrite (validators_isValid _ _ H) in Hval. now apply objectKeys_empty.
Qed.

Lemma optTrim_truthy (v t : jsval) :
  optTrim v = Normal t -> negb (truthy t) = false -> exists s, v = JStr s.
Proof.
  destruct v; simpl; intros [= <-]; try discriminate. eauto.
Qed.

Lemma patternRule_passed (rx : regex) (v : jsval) :
  orElse (negb (truthy v)) (negb <$> regexTest rx v) = Normal false ->
  exists s, toString v = Normal s.
Proof.
  unfold orElse, regexTest. destruct (negb (truthy v)); [discriminate |].
  destruct (toString v) as [s|e]; simpl; [eauto | discriminate].
Qed.

Lemma blankOrShorter_passed (n : nat) (v : jsval) :
  blankOrShorter n v = Normal false -> exists s, v = JStr s.
Proof.
  unfold blankOrShorter, orElse. destruct (negb (truthy v)); [discriminate |].
  destruct v; simpl; try discriminate. eauto.
Qed.

Lemma validateJobApplication_valid_fields (data : jsval) (r : ValidationResult) :
  validateJobApplication data = Normal r -> isValid r = true ->
  (exists s, field data "firstName" = JStr s)
  /\ (exists s, field data "lastName" = JStr s)
  /\ (exists s, toString (field data "email") = Normal s)
  /\ (exists s, toString (field data "phone") = Normal s).
Proof.
  intros H Hval. pose proof (validators_valid_empty _ _ (or_introl H) Hval) as He.
  apply validateJobApplication_inv in H
    as (fn & ln & em & ph & t1 & t2 & b3 & b4
        & Hfn & Ht1 & Hln & Ht2 & Hem & Hb3 & Hph & Hb4 & Herr & _).
  rewrite He in Herr. symmetry in Herr.
  apply setIf_nonempty in Herr as [-> Herr].
  apply setIf_nonempty in Herr as [-> Herr].
  apply setIf_nonempty in Herr as [H2 Herr].
  apply setIf_nonempty in Herr as [H1 _].
  rewrite (field_getProp _ _ _ Hfn), (field_getProp _ _ _ Hln),
    (field_getProp _ _ _ Hem), (field_getProp _ _ _ Hph).
  repeat split; eauto using optTrim_truthy, patternRule_passed.
Qed.

Lemma validateFormInput_valid_fields (data : jsval) (r : ValidationResult) :
  validateFormInput data = Normal r -> isValid r = true ->
  (exists s, field data "name" = JStr s)
  /\ (exists s, toString (field data "email") = Normal s)
  /\ (truthy (field data "fullPhoneNumber") = true ->
      exists s, field data "fullPhoneNumber" = JStr s)
  /\ (exists s, field data "subject" = JStr s)
  /\ (exists s, field data "message" = JStr s).
Proof.
  intros H Hval. pose proof (validators_valid_empty _ _ (or_intror H) Hval) as He.
  apply validateFormInput_inv in H
    as (nm & em & ph & sj & msg & b1 & b2 & b4 & b5 & e3
        & Hnm & Hb1 & Hem & Hb2 & Hph & He3 & Hsj & Hb4 & Hmsg & Hb5 & Herr & _).
  rewrite He in Herr. symmetry in Herr.
  apply setIf_nonempty in Herr as [-> Herr].
  apply setIf_nonempty in Herr as [-> ->].
  rewrite (field_getProp _ _ _ Hnm), (field_getProp _ _ _ Hem), (field_getProp _ _ _ Hph),
    (field_getProp _ _ _ Hsj), (field_getProp _ _ _ Hmsg).
  assert (b2 = false /\ b1 = false) as [-> ->].
  { destruct (truthy ph).
    - bind_inv He3. injection He3 as He3.
      apply setIf_nonempty in He3 as [_ He3].
      apply setIf_nonempty in He3 as [-> He3].
      now apply setIf_nonempty in He3 as [-> _].
    - injection He3 as He3.
      apply setIf_nonempty in He3 as [-> He3].
      now apply setIf_nonempty in He3 as [-> _]. }
  repeat split; eauto using blankOrShorter_passed, patternRule_passed.
  intros Hph'. rewrite Hph' in He3. bind_inv He3.
  destruct ph; simpl in E; try discriminate. eauto.
Qed.

Lemma toString_envVal (x : option jsstring) : exists s, toString (envVal x) = Normal s.
Proof. destruct x; simpl; eauto. Qed.

Lemma mailOptions_composed (env : Env) (fn ln em ph jt jl : jsval) (resume : Upload)
    (s1 s2 s3 s4 s5 s6 : jsstring) :
  toString fn = Normal s1 -> toString ln = Normal s2 -> toString em = Normal s3 ->
  toString ph = Normal s4 -> toString jt = Normal s5 -> toString jl = Normal s6 ->
  exists m, mailOptions env fn ln em ph jt jl resume = Normal m.
Proof.
  intros H1 H2 H3 H4 H5 H6. unfold mailOptions.
  destruct (toString_envVal (EMAIL_USER env)) as [u ->]. simpl.
  rewrite H5, H6, H1, H2. simpl. rewrite H3, H4. simpl. eauto.
Qed.

Lemma applicantMailOptions_composed (env : Env) (fn em jt jl : jsval) (s1 s5 s6 : jsstring) :
  toString fn = Normal s1 -> toString jt = Normal s5 -> toString jl = Normal s6 ->
  exists m, applicantMailOptions env fn em jt jl = Normal m.
Proof.
  intros H1 H5 H6. unfold applicantMailOptions.
  destruct (toString_envVal (EMAIL_USER env)) as [u ->]. simpl.
  rewrite H1, H5, H6. simpl. eauto.
Qed.

Lemma clientMailOptionsOf_composed (env : Env) (hrCopy : bool) (nm em ph sj msg : jsval)
    (s1 s2 s4 s5 : jsstring) :
  toString nm = Normal s1 -> toString em = Normal s2 ->
  (truthy ph = true -> exists s3, ph = JStr s3) ->
  toString sj = Normal s4 -> toString msg = Normal s5 ->
  exists m, clientMailOptionsOf env hrCopy nm em ph sj msg = Normal m.
Proof.
  intros H1 H2 H3 H4 H5. unfold clientMailOptionsOf.
  destruct (toString_envVal (EMAIL_USER env)) as [u ->]. simpl.
  rewrite H4, H1, H2. simpl.
  destruct (truthy ph).
  - destruct H3 as [s3 ->]; [reflexivity |]. simpl. rewrite H5. simpl. eauto.
  - simpl. rewrite H5. simpl. eauto.
Qed.

Lemma userMailOptions_composed (env : Env) (nm em sj : jsval) (s1 s4 : jsstring) :
  toString nm = Normal s1 -> toString sj = Normal s4 ->
  exists m, userMailOptions env nm em sj = Normal m.
Proof.
  intros H1 H4. unfold userMailOptions.
  destruct (toString_envVal (EMAIL_USER env)) as [u ->]. simpl.
  rewrite H1, H4. simpl. eauto.
Qed.

Lemma afterDispatch_dispatchedBoth (t : Transporter) (log : list OutboundEmail)
    (m1 m2 : OutboundEmail) (success : Response) (failure : string) :
  status success = 200%nat ->
  (exists text, json success = Message text) ->
  dispatchedBoth t log failure m1 m2
    (afterDispatch t log m1 m2 success
       (fun e => {| status := 500; json := Failure failure e |})).
Proof.
  intros Hs Hj. unfold dispatchedBoth, afterDispatch, settleAll, awaitAll, liftC,
    firstPromise, secondPromise.
  destruct (sendMail t log m1) as [|e1], (sendMail t (log ++ [m1]) m2) as [|e2]; simpl;
    eexists; (split; [reflexivity |]); simpl.
  - split; [tauto |]. split; [auto | congruence].
  - split; [split; [discriminate | intros [_ ?]; discriminate] |].
    split; [discriminate |]. intros _. split; [reflexivity |]. eauto.
  - split; [split; [discriminate | intros [? _]; discriminate] |].
    split; [discriminate |]. intros _. split; [reflexivity |]. eauto.
  - split; [split; [discriminate | intros [? _]; discriminate] |].
    split; [discriminate |]. intros _. split; [reflexivity |].
    destruct (secondRejectsFirst t); eauto.
Qed.

(** C1, as the code has it. A submission that passes validation (on the
    job-application path: with a resume attached and with a job title
    and a job location that convert to strings) has its notification and
    its acknowledgment composed and handed to the transporter, these two
    calls and no other; the handler answers 200 exactly when both are
    delivered, and otherwise 500 with the generic failure message and the
    text of a rejection. This holds for the contact route of either
    server. *)
Theorem dispatch_both_or_fail (env : Env) (t : Transporter) (hrCopy : bool)
    (job : Request) (rj : ValidationResult) (resume : Upload) (title location : jsstring)
    (message : Request) (rc : ValidationResult) (log : list OutboundEmail) :
  validateJobApplication (body job) = Normal rj -> isValid rj = true ->
  file job = Some resume ->
  toString (field (body job) "jobTitle") = Normal title ->
  toString (field (body job) "jobLocation") = Normal location ->
  validateFormInput (body message) = Normal rc -> isValid rc = true ->
  (exists m1 m2,
      mailOptions env (field (body job) "firstName") (field (body job) "lastName")
        (field (body job) "email") (field (body job) "phone")
        (field (body job) "jobTitle") (field (body job) "jobLocation") resume = Normal m1
      /\ applicantMailOptions env (field (body job) "firstName") (field (body job) "email")
           (field (body job) "jobTitle") (field (body job) "jobLocation") = Normal m2
      /\ dispatchedBoth t log "Failed to submit application. Please try again later." m1 m2
           (jobApplication env t job log))
  /\ (exists m1 m2,
        clientMailOptionsOf env hrCopy (field (body message) "name")
          (field (body message) "email") (field (body message) "fullPhoneNumber")
          (field (body message) "subject") (field (body message) "message") = Normal m1
        /\ userMailOptions env (field (body message) "name") (field (body message) "email")
             (field (body message) "subject") = Normal m2
        /\ dispatchedBoth t log "Failed to submit form. Please try again later." m1 m2
             (contactOf env t hrCopy message log)).
Proof.
  intros Hj Hvj Hfile Htitle Hloc Hc Hvc. split.
  - destruct (validateJobApplication_valid_fields _ _ Hj Hvj)
      as ([s1 Hfn] & [s2 Hln] & [s3 Hem] & [s4 Hph]).
    destruct (mailOptions_composed env (field (body job) "firstName")
                (field (body job) "lastName") (field (body job) "email")
                (field (body job) "phone") (field (body job) "jobTitle")
                (field (body job) "jobLocation") resume s1 s2 s3 s4 title location)
      as [m1 Hm1]; try assumption;
      try (rewrite Hfn; reflexivity); try (rewrite Hln; reflexivity).
    destruct (applicantMailOptions_composed env (field (body job) "firstName")
                (field (body job) "email") (field (body job) "jobTitle")
                (field (body job) "jobLocation") s1 title location)
      as [m2 Hm2]; try assumption; try (rewrite Hfn; reflexivity).
    exists m1, m2. split; [assumption |]. split; [assumption |].
    rewrite (jobApplication_validated _ _ _ _ _ Hj), Hvj, Hfile, Hm1, Hm2. simpl.
    apply afterDispatch_dispatchedBoth; [reflexivity | eexists; reflexivity].
  - destruct (validateFormInput_valid_fields _ _ Hc Hvc)
      as ([s1 Hnm] & [s2 Hem] & Hph & [s4 Hsj] & [s5 Hmsg]).
    destruct (clientMailOptionsOf_composed env hrCopy (field (body message) "name")
                (field (body message) "email") (field (body message) "fullPhoneNumber")
                (field (body message) "subject") (field (body message) "message")
                s1 s2 s4 s5)
      as [m1 Hm1]; try assumption;
      try (rewrite Hnm; reflexivity); try (rewrite Hsj; reflexivity);
      try (rewrite Hmsg; reflexivity).
    destruct (userMailOptions_composed env (field (body message) "name")
                (field (body message) "email") (field (body message) "subject") s1 s4)
      as [m2 Hm2]; try (rewrite Hnm; reflexivity); try (rewrite Hsj; reflexivity).
    exists m1, m2. split; [assumption |]. split; [assumption |].
    rewrite (contactOf_validated _ _ _ _ _ _ Hc), Hvc, Hm1, Hm2. simpl.
    apply afterDispatch_dispatchedBoth; [reflexivity | eexists; reflexivity].
Qed.

Lemma dispatch_both_or_fail_witness :
  validateJobApplication (body goodJobRequest) = Normal {| isValid := true; errors := ∅ |}
  /\ file goodJobRequest = Some cv
  /\ toString (field (body goodJobRequest) "jobTitle") = Normal (lit "Engineer")
  /\ toString (field (body goodJobRequest) "jobLocation") = Normal (lit "Pune")
  /\ validateFormInput (body goodContactRequest) = Normal {| isValid := true; errors := ∅ |}
  /\ (exists m1 m2,
        dispatchedBoth failingSecond [] "Failed to submit application. Please try again later."
          m1 m2 (jobApplication sampleEnv failingSecond goodJobRequest []))
  /\ (exists m1 m2,
        dispatchedBoth failingSecond [] "Failed to submit form. Please try again later."
          m1 m2 (contactOf sampleEnv failingSecond false goodContactRequest [])).
Proof.
  assert (validateJobApplication (body goodJobRequest)
          = Normal {| isValid := true; errors := ∅ |}) as Hj by (vm_compute; reflexivity).
  assert (validateFormInput (body goodContactRequest)
          = Normal {| isValid := true; errors := ∅ |}) as Hc by (vm_compute; reflexivity).
  split; [exact Hj |]. split; [reflexivity |].
  split; [reflexivity |]. split; [reflexivity |]. split; [exact Hc |].
  destruct (dispatch_both_or_fail sampleEnv failingSecond false goodJobRequest
              {| isValid := true; errors := ∅ |} cv (lit "Engineer") (lit "Pune")
              goodContactRequest {| isValid := true; errors := ∅ |} []
              Hj eq_refl eq_refl eq_refl eq_refl Hc eq_refl)
    as [(m1 & m2 & _ & _ & H1) (n1 & n2 & _ & _ & H2)].
  split; eauto.
Defined.

(** C1, as stated, fails: this application passes validation and has
    its resume, but its job title is an object that no method turns into
    a string; composing the notification throws, the transporter is
    never called and the answer is 500. *)
Lemma unconvertible_job_title_counterexample :
  validateJobApplication (body objectTitleRequest) = Normal {| isValid := true; errors := ∅ |}
  /\ file objectTitleRequest = Some cv
  /\ jobApplication sampleEnv delivering objectTitleRequest []
     = (Normal (jobFailure TypeError), [])
  /\ ~ (exists m1 m2,
          dispatchedBoth delivering [] "Failed to submit application. Please try again later."
            m1 m2 (jobApplication sampleEnv delivering objectTitleRequest [])).
Proof.
  assert (jobApplication sampleEnv delivering objectTitleRequest []
          = (Normal (jobFailure TypeError), [])) as Hrun by (vm_compute; reflexivity).
  split; [vm_compute; reflexivity |]. split; [reflexivity |]. split; [exact Hrun |].
  intros (m1 & m2 & resp & H & _). rewrite Hrun in H. discriminate.
Qed.

(** ** Values that are not strings *)

Lemma toString_TypeError : forall (v : jsval) (e : exn), toString v = Throw e -> e = TypeError.
Proof.
  fix IH 1. intros v e. destruct v as [| | b | z | s | items | proto props]; simpl;
    try discriminate.
  - induction items as [|x l IHl]; [discriminate |].
    assert (forall e', match x with
                       | JUndefined | JNull => Normal []
                       | _ => toString x
                       end = Throw e' -> e' = TypeError) as Hx.
    { pose proof (IH x) as IHx. intros e' He'.
      destruct x; try discriminate; now apply IHx in He'. }
    destruct (match x with JUndefined | JNull => Normal [] | _ => toString x end)
      as [s|e'] eqn:Hel; simpl.
    + destruct l as [|y l]; [discriminate |].
      match goal with
      | |- context [?j ≫= _] => destruct j as [r|e''] eqn:Hj
      end; simpl; [discriminate |].
      intros [= <-]. now apply IHl.
    + intros [= <-]. now apply Hx.
  - destruct (proto && _); [discriminate | now intros [= <-]].
Qed.

Lemma bind_Throw_inv {A B : Type} (m : completion A) (f : A -> completion B) (e : exn) :
  m ≫= f = Throw e -> m = Throw e \/ exists a, m = Normal a /\ f a = Throw e.
Proof. destruct m as [a|e']; simpl; [eauto | intros [= <-]; auto]. Qed.

Lemma getProp_TypeError (o : jsval) (k : string) (e : exn) :
  getProp o k = Throw e -> e = TypeError.
Proof. intros H. now apply (getProp_Throw _ _ k) in H as [-> _]. Qed.

Lemma callTrim_TypeError (v : jsval) (e : exn) : callTrim v = Throw e -> e = TypeError.
Proof. destruct v; simpl; intros [= <-]; reflexivity. Qed.

Lemma optTrim_TypeError (v : jsval) (e : exn) : optTrim v = Throw e -> e = TypeError.
Proof. destruct v; simpl; intros [= <-]; reflexivity. Qed.

Lemma callReplaceNonDigits_TypeError (v : jsval) (e : exn) :
  callReplaceNonDigits v = Throw e -> e = TypeError.
Proof. destruct v; simpl; intros [= <-]; reflexivity. Qed.

Lemma patternRule_TypeError (rx : regex) (v : jsval) (e : exn) :
  orElse (negb (truthy v)) (negb <$> regexTest rx v) = Throw e -> e = TypeError.
Proof.
  unfold orElse, regexTest. destruct (negb (truthy v)); [discriminate |].
  destruct (toString v) as [s|e'] eqn:Hs; simpl; [discriminate |].
  intros [= <-]. now apply toString_TypeError in Hs.
Qed.

Lemma blankOrShorter_TypeError (n : nat) (v : jsval) (e : exn) :
  blankOrShorter n v = Throw e -> e = TypeError.
Proof.
  unfold blankOrShorter, orElse. destruct (negb (truthy v)); [discriminate |].
  destruct (callTrim v) as [s|e'] eqn:Hs; simpl; [discriminate |].
  intros [= <-]. now apply callTrim_TypeError in Hs.
Qed.

Ltac throw_step H :=
  apply bind_Throw_inv in H as [H | (? & _ & H)];
  [ first [ now apply getProp_TypeError in H
          | now apply optTrim_TypeError in H
          | now apply patternRule_TypeError in H
          | now apply blankOrShorter_TypeError in H ]
  | cbv zeta in H ].

Lemma validateJobApplication_TypeError (data : jsval) (e : exn) :
  validateJobApplication data = Throw e -> e = TypeError.
Proof.
  unfold validateJobApplication. intros H. cbv zeta in H.
  do 8 throw_step H. discriminate.
Qed.

Lemma validateFormInput_TypeError (data : jsval) (e : exn) :
  validateFormInput data = Throw e -> e = TypeError.
Proof.
  unfold validateFormInput. intros H. cbv zeta in H.
  do 5 throw_step H.
  apply bind_Throw_inv in H as [H | (? & _ & H)].
  - destruct (truthy _); [| discriminate].
    apply bind_Throw_inv in H as [H | (? & _ & H)]; [| discriminate].
    now apply callReplaceNonDigits_TypeError in H.
  - do 4 throw_step H. discriminate.
Qed.

Lemma optTrim_non_string (v : jsval) : truthyNonString v -> optTrim v = Throw TypeError.
Proof.
  intros [Ht Hs]. destruct v; simpl in *; try discriminate; try reflexivity.
  now destruct (Hs s).
Qed.

Lemma blankOrShorter_non_string (n : nat) (v : jsval) :
  truthyNonString v -> blankOrShorter n v = Throw TypeError.
Proof.
  intros [Ht Hs]. unfold blankOrShorter. rewrite Ht. simpl.
  destruct v; simpl in *; try discriminate; try reflexivity.
  now destruct (Hs s).
Qed.

Lemma validateJobApplication_non_string (data : jsval) (v : jsval) :
  getProp data "firstName" = Normal v \/ getProp data "lastName" = Normal v ->
  truthyNonString v ->
  validateJobApplication data = Throw TypeError.
Proof.
  intros Hk Hv. destruct (validateJobApplication data) as [r|e] eqn:H.
  - exfalso. destruct (validateJobApplication_names _ _ H) as (t1 & t2 & H1 & H2 & _).
    destruct Hk as [Hk | Hk]; rewrite (field_getProp _ _ _ Hk) in *;
      rewrite (optTrim_non_string _ Hv) in *; discriminate.
  - f_equal. eapply validateJobApplication_TypeError; eauto.
Qed.

Lemma validateFormInput_non_string (data : jsval) (v : jsval) :
  getProp data "name" = Normal v \/ getProp data "subject" = Normal v
  \/ getProp data "message" = Normal v ->
  truthyNonString v ->
  validateFormInput data = Throw TypeError.
Proof.
  intros Hk Hv. destruct (validateFormInput data) as [r|e] eqn:H.
  - exfalso.
    destruct (validateFormInput_texts _ _ H) as (b1 & b4 & b5 & H1 & H4 & H5 & _).
    destruct Hk as [Hk | [Hk | Hk]]; rewrite (field_getProp _ _ _ Hk) in *;
      rewrite (blankOrShorter_non_string _ _ Hv) in *; discriminate.
  - f_equal. eapply validateFormInput_TypeError; eauto.
Qed.

Lemma validators_total_on_strings (data : jsval) :
  stringFields data ->
  (exists r, validateJobApplication data = Normal r)
  /\ (exists r, validateFormInput data = Normal r).
Proof.
  intros H.
  assert (forall n, blankOrShorter n JUndefined = Normal true) as Hu by reflexivity.
  assert (forall rx, orElse (negb (truthy JUndefined)) (negb <$> regexTest rx JUndefined)
                     = Normal true) as Hp by reflexivity.
  split.
  - unfold validateJobApplication.
    destruct (H "firstName") as (v1 & -> & [-> | [s1 ->]]);
      destruct (H "lastName") as (v2 & -> & [-> | [s2 ->]]);
      destruct (H "email") as (v3 & -> & [-> | [s3 ->]]);
      destruct (H "phone") as (v4 & -> & [-> | [s4 ->]]);
      repeat first
        [ rewrite patternRule_str by reflexivity
        | rewrite Hp
        | progress cbn [mbind completion_bind optTrim callTrim] ];
      eauto.
  - unfold validateFormInput.
    destruct (H "name") as (v1 & -> & [-> | [s1 ->]]);
      destruct (H "email") as (v2 & -> & [-> | [s2 ->]]);
      destruct (H "fullPhoneNumber") as (v3 & -> & [-> | [s3 ->]]);
      destruct (H "subject") as (v4 & -> & [-> | [s4 ->]]);
      destruct (H "message") as (v5 & -> & [-> | [s5 ->]]);
      repeat first
        [ rewrite blankOrShorter_str by lia
        | rewrite Hu
        | rewrite patternRule_str by reflexivity
        | rewrite Hp
        | progress change (truthy JUndefined) with false
        | match goal with
          | |- context [if truthy (JStr ?s) then _ else _] => destruct (truthy (JStr s))
          end
        | progress cbn [mbind completion_bind callReplaceNonDigits] ];
      eauto.
Qed.

Lemma stringFields_object (proto : bool) (props : list (jsstring * jsval)) :
  Forall (fun kv => exists s, snd kv = JStr s) props -> stringFields (JObj proto props).
Proof.
  intros Hall key. simpl. eexists. split; [reflexivity |].
  unfold ownProp. induction Hall as [|[k v] l [s Hs] _ IH]; simpl.
  - now left.
  - destruct (bool_decide (k = lit key)); simpl; [right; eauto | exact IH].
Qed.

(** C10. The validators return a result whenever every field is a
    string or absent, but a truthy value that is not a string in a
    trimmed field ([firstName], [lastName]; [name], [subject],
    [message]) makes the validator throw a [TypeError]; the handler's
    [catch] answers 500 with its failure message and that error, without
    any dispatch, so such a request never gets a 400 with field errors. *)
Theorem non_string_field_gives_500 (env : Env) (t : Transporter) (hrCopy : bool)
    (job : Request) (vj : jsval) (message : Request) (vc : jsval)
    (log : list OutboundEmail) :
  getProp (body job) "firstName" = Normal vj \/ getProp (body job) "lastName" = Normal vj ->
  truthyNonString vj ->
  getProp (body message) "name" = Normal vc \/ getProp (body message) "subject" = Normal vc
  \/ getProp (body message) "message" = Normal vc ->
  truthyNonString vc ->
  (validateJobApplication (body job) = Throw TypeError
   /\ jobApplication env t job log
      = (Normal {| status := 500;
                   json := Failure "Failed to submit application. Please try again later."
                             TypeError |}, log))
  /\ (validateFormInput (body message) = Throw TypeError
      /\ contactOf env t hrCopy message log
         = (Normal {| status := 500;
                      json := Failure "Failed to submit form. Please try again later."
                                TypeError |}, log))
  /\ (forall data, stringFields data ->
        (exists r, validateJobApplication data = Normal r)
        /\ (exists r, validateFormInput data = Normal r)).
Proof.
  intros Hkj Hvj Hkc Hvc.
  pose proof (validateJobApplication_non_string _ _ Hkj Hvj) as Hj.
  pose proof (validateFormInput_non_string _ _ Hkc Hvc) as Hc.
  split; [| split].
  - split; [exact Hj |]. now rewrite (jobApplication_thrown _ _ _ _ _ Hj).
  - split; [exact Hc |]. now rewrite (contactOf_thrown _ _ _ _ _ _ Hc).
  - apply validators_total_on_strings.
Qed.

Lemma non_string_field_gives_500_witness :
  getProp (body numberNameJob) "firstName" = Normal (num "5")
  /\ truthyNonString (num "5")
  /\ getProp (body numberNameContact) "name" = Normal (num "5")
  /\ jobApplication sampleEnv delivering numberNameJob []
     = (Normal {| status := 500;
                  json := Failure "Failed to submit application. Please try again later."
                            TypeError |}, [])
  /\ contactOf sampleEnv delivering true numberNameContact []
     = (Normal {| status := 500;
                  json := Failure "Failed to submit form. Please try again later."
                            TypeError |}, [])
  /\ stringFields goodContact.
Proof.
  assert (truthyNonString (num "5")) as Hv by (split; [reflexivity | discriminate]).
  pose proof (non_string_field_gives_500 sampleEnv delivering true
                numberNameJob (num "5") numberNameContact (num "5") []
                (or_introl eq_refl) Hv (or_introl eq_refl) Hv) as [[_ Hj] [[_ Hc] _]].
  split; [reflexivity |]. split; [exact Hv |]. split; [reflexivity |].
  split; [exact Hj |]. split; [exact Hc |].
  apply stringFields_object. repeat constructor; eexists; reflexivity.
Defined.

(** ** Recipients of the notification *)

(** C3, as the code has it. The notification goes to the configured
    client address on every route. The two-endpoint server copies the
    configured HR address on both of its notifications, the job
    application's and the contact form's; only the contact route of
    [src/server.js] sends its notification without a copy. *)
Theorem notification_recipients (env : Env)
    (fn ln em ph jt jl : jsval) (resume : Upload) (nm cem cph sj msg : jsval)
    (mj mc ms : OutboundEmail) :
  mailOptions env fn ln em ph jt jl resume = Normal mj ->
  clientMailOptions env nm cem cph sj msg = Normal mc ->
  clientMailOptions_src env nm cem cph sj msg = Normal ms ->
  (to mj = envVal (CLIENT_EMAIL env) /\ cc mj = Some (envVal (HR_EMAIL env)))
  /\ (to mc = envVal (CLIENT_EMAIL env) /\ cc mc = Some (envVal (HR_EMAIL env)))
  /\ (to ms = envVal (CLIENT_EMAIL env) /\ cc ms = None).
Proof.
  unfold mailOptions, clientMailOptions, clientMailOptions_src, clientMailOptionsOf.
  intros Hj Hc Hs.
  do 6 bind_inv Hj. injection Hj as <-.
  do 5 bind_inv Hc. injection Hc as <-.
  do 5 bind_inv Hs. injection Hs as <-.
  simpl. auto.
Qed.

Lemma notification_recipients_witness :
  exists mj mc ms,
    mailOptions sampleEnv (str "Ann") (str "Lee") (str "a@b.com") (str "+1 (555) 123-4567")
      (str "Engineer") (str "Pune") cv = Normal mj
    /\ clientMailOptions sampleEnv (str "Ann") (str "a@b.com") (str "123-456-7890")
         (str "Hello") (str "A long enough message") = Normal mc
    /\ clientMailOptions_src sampleEnv (str "Ann") (str "a@b.com") (str "123-456-7890")
         (str "Hello") (str "A long enough message") = Normal ms
    /\ (to mj = str "client@xemsoft.example" /\ cc mj = Some (str "hr@xemsoft.example"))
    /\ (to mc = str "client@xemsoft.example" /\ cc mc = Some (str "hr@xemsoft.example"))
    /\ (to ms = str "client@xemsoft.example" /\ cc ms = None).
Proof.
  do 3 eexists.
  split; [vm_compute; reflexivity |].
  split; [vm_compute; reflexivity |].
  split; [vm_compute; reflexivity |].
  apply (notification_recipients sampleEnv
           (str "Ann") (str "Lee") (str "a@b.com") (str "+1 (555) 123-4567")
           (str "Engineer") (str "Pune") cv
           (str "Ann") (str "a@b.com") (str "123-456-7890")
           (str "Hello") (str "A long enough message"));
    vm_compute; reflexivity.
Defined.

(** C3, as stated, fails: the contact notification of the two-endpoint
    server carries the configured HR address as its copy. *)
Lemma contact_copies_hr_counterexample :
  (exists mc,
      clientMailOptions sampleEnv (str "Ann") (str "a@b.com") (str "123-456-7890")
        (str "Hello") (str "A long enough message") = Normal mc
      /\ cc mc = Some (envVal (HR_EMAIL sampleEnv)))
  /\ ~ (forall env nm em ph sj msg mc,
          clientMailOptions env nm em ph sj msg = Normal mc -> cc mc = None).
Proof.
  assert (exists mc,
      clientMailOptions sampleEnv (str "Ann") (str "a@b.com") (str "123-456-7890")
        (str "Hello") (str "A long enough message") = Normal mc
      /\ cc mc = Some (envVal (HR_EMAIL sampleEnv))) as H.
  { eexists. split; vm_compute; reflexivity. }
  split; [exact H |].
  intros Hall. destruct H as (mc & Hmc & Hcc).
  apply Hall in Hmc. congruence.
Qed.

(** ** The email rule in both validators *)

Lemma email_entry_of_string (data : jsval) (r : ValidationResult) (s : jsstring) :
  getProp data "email" = Normal (JStr s) ->
  validateJobApplication data = Normal r \/ validateFormInput data = Normal r ->
  emailVerdict r s.
Proof.
  intros Hem H. unfold emailVerdict.
  assert (exists b, orElse (negb (truthy (JStr s))) (negb <$> regexTest emailRegex (JStr s))
                    = Normal b
                    /\ errors r !! "email" = if b then Some "Valid email is required" else None)
    as (b & Hb & ->).
  { destruct H as [H | H];
      [eapply validateJobApplication_email | eapply validateFormInput_email]; eauto. }
  rewrite patternRule_str in Hb by reflexivity. injection Hb as <-.
  split; [| split].
  - rewrite emailPattern_test. destruct (test emailRegex s); simpl; split; congruence.
  - intros ->. reflexivity.
  - intros [-> | ->]; reflexivity.
Qed.

(** C4. For every string supplied as the email field, both validators
    leave the [email] entry out exactly when the string is a run of
    characters that are neither whitespace nor [@], then [@], then such a
    run, then [.], then such a run; [a@b.com] is accepted, [a@b] and
    [a.com] each get the email error. This is so in every result either
    validator returns, and on a body whose fields are strings or absent
    both validators do return one. *)
Theorem email_accepted_iff_pattern (data : jsval) (s : jsstring) :
  getProp data "email" = Normal (JStr s) ->
  (forall r, validateJobApplication data = Normal r -> emailVerdict r s)
  /\ (forall r, validateFormInput data = Normal r -> emailVerdict r s)
  /\ (stringFields data ->
      exists rj rc,
        validateJobApplication data = Normal rj /\ validateFormInput data = Normal rc
        /\ emailVerdict rj s /\ emailVerdict rc s).
Proof.
  intros Hem. split; [| split].
  - intros r H. apply (email_entry_of_string data); auto.
  - intros r H. apply (email_entry_of_string data); auto.
  - intros Hs. destruct (validators_total_on_strings _ Hs) as [[rj Hj] [rc Hc]].
    exists rj, rc. split; [exact Hj |]. split; [exact Hc |].
    split; apply (email_entry_of_string data); auto.
Qed.

Lemma email_accepted_iff_pattern_witness :
  getProp bothForms "email" = Normal (JStr (lit "a@b.com"))
  /\ stringFields bothForms
  /\ exists rj rc,
       validateJobApplication bothForms = Normal rj /\ validateFormInput bothForms = Normal rc
       /\ emailVerdict rj (lit "a@b.com") /\ emailVerdict rc (lit "a@b.com").
Proof.
  assert (stringFields bothForms) as Hs.
  { apply stringFields_object. repeat constructor; eexists; reflexivity. }
  split; [reflexivity |]. split; [exact Hs |].
  exact (proj2 (proj2 (email_accepted_iff_pattern bothForms (lit "a@b.com") eq_refl)) Hs).
Defined.

(** ** Every rule reports, whenever there is a result *)




(** ** Rejection, with and without a result *)





(** * Further properties of the code *)

(** ** Trimming *)

Lemma trimStart_allSpace (s : jsstring) : allSpace s -> trimStart s = [].
Proof.
  induction 1 as [|c s Hc _ IH]; simpl; [reflexivity |]. now rewrite Hc.
Qed.

Lemma trimStart_head (s : jsstring) (c : char) (t : jsstring) :
  trimStart s = c :: t -> is_space c = false.
Proof.
  induction s as [|x s IH]; simpl; [discriminate |].
  destruct (is_space x) eqn:Hx; [exact IH |]. now intros [= <- <-].
Qed.

Lemma trimStart_nil_iff (s : jsstring) : trimStart s = [] <-> allSpace s.
Proof.
  split; [| apply trimStart_allSpace].
  unfold allSpace. induction s as [|x s IH]; simpl; [constructor |].
  destruct (is_space x) eqn:Hx; [| discriminate].
  intros H. constructor; [exact Hx | exact (IH H)].
Qed.

Lemma trimStart_app (s r : jsstring) :
  trimStart (s ++ r) =
    match trimStart s with
    | [] => trimStart r
    | _ :: _ => trimStart s ++ r
    end.
Proof.
  induction s as [|x s IH]; simpl; [now destruct (trimStart r) |].
  destruct (is_space x); [exact IH | reflexivity].
Qed.

Lemma allSpace_rev (s : jsstring) : allSpace (rev s) <-> allSpace s.
Proof.
  unfold allSpace. split; intros H.
  - rewrite <- (rev_involutive s). now apply List.Forall_rev.
  - now apply List.Forall_rev.
Qed.

Lemma trim_nil_iff (s : jsstring) : trim s = [] <-> allSpace s.
Proof.
  unfold trim. split.
  - intros H. apply (f_equal (@rev char)) in H. rewrite rev_involutive in H. simpl in H.
    apply trimStart_nil_iff in H. apply (proj1 (allSpace_rev _)) in H.
    destruct (trimStart s) as [|c t] eqn:Hs; [now apply trimStart_nil_iff |].
    apply trimStart_head in Hs. inversion H; subst. congruence.
  - intros H. now rewrite (trimStart_allSpace _ H).
Qed.

Lemma trim_padding (l s r : jsstring) :
  allSpace l -> allSpace r -> trim (l ++ s ++ r) = trim s.
Proof.
  intros Hl Hr. unfold trim.
  rewrite trimStart_app, (trimStart_allSpace _ Hl), trimStart_app.
  destruct (trimStart s) as [|c t] eqn:Hs.
  - now rewrite (trimStart_allSpace _ Hr).
  - rewrite rev_app_distr, trimStart_app.
    now rewrite (trimStart_allSpace (rev r)) by now apply allSpace_rev.
Qed.

Lemma not_allSpace (s : jsstring) :
  ~ allSpace s <-> exists c, In c s /\ is_space c = false.
Proof.
  unfold allSpace. induction s as [|x s IH].
  - split; [intros H; destruct H; constructor | intros (c & [] & _)].
  - split.
    + intros H. destruct (is_space x) eqn:Hx.
      * destruct (proj1 IH) as (c & Hin & Hc).
        { intros Hs. apply H. now constructor. }
        exists c. split; [now right | assumption].
      * exists x. split; [now left | assumption].
    + intros (c & [-> | Hin] & Hc) H; inversion H; subst; [congruence |].
      apply (proj2 IH); eauto.
Qed.

(** X1. A first or last name given as a string gets its error exactly
    when it consists of whitespace characters only (the empty string
    included). *)
Theorem blank_name_iff_all_whitespace (data : jsval) (r : ValidationResult)
    (key : string) (s : jsstring) :
  validateJobApplication data = Normal r ->
  key = "firstName" \/ key = "lastName" ->
  getProp data key = Normal (JStr s) ->
  (is_Some (errors r !! key) <-> allSpace s)
  /\ (errors r !! key = None <-> exists c, In c s /\ is_space c = false).
Proof.
  intros H Hkey Hs.
  destruct (validateJobApplication_names _ _ H) as (t1 & t2 & Ht1 & Ht2 & Hk1 & Hk2).
  assert (is_Some (errors r !! key) <-> trim s = []) as Hrule.
  { destruct Hkey as [-> | ->]; rewrite (field_getProp _ _ _ Hs) in *.
    - now apply (requiredTrimmed_rule r _ _ _ _ Ht1 Hk1).
    - now apply (requiredTrimmed_rule r _ _ _ _ Ht2 Hk2). }
  rewrite trim_nil_iff in Hrule. split; [exact Hrule |].
  rewrite eq_None_not_Some, Hrule. apply not_allSpace.
Qed.

Lemma blank_name_iff_all_whitespace_witness :
  validateJobApplication goodJob = Normal {| isValid := true; errors := ∅ |}
  /\ getProp goodJob "firstName" = Normal (JStr (lit "Ann"))
  /\ (is_Some (errors {| isValid := true; errors := ∅ |} !! "firstName")
      <-> allSpace (lit "Ann")).
Proof.
  assert (validateJobApplication goodJob = Normal {| isValid := true; errors := ∅ |}) as H
      by (vm_compute; reflexivity).
  split; [exact H |]. split; [reflexivity |].
  exact (proj1 (blank_name_iff_all_whitespace goodJob _ "firstName" (lit "Ann")
                  H (or_introl eq_refl) eq_refl)).
Defined.

(** X2. Whitespace around the name, the subject or the message of a
    contact form does not count towards the minimum length: a value
    padded on either side is judged by the length of what it pads. *)
Theorem padding_does_not_count (data : jsval) (r : ValidationResult)
    (key : string) (n : nat) (l m p : jsstring) :
  validateFormInput data = Normal r ->
  (key = "name" /\ n = 2%nat) \/ (key = "subject" /\ n = 3%nat)
  \/ (key = "message" /\ n = 10%nat) ->
  getProp data key = Normal (JStr (l ++ m ++ p)) ->
  allSpace l -> allSpace p ->
  (is_Some (errors r !! key) <-> (length (trim m) < n)%nat).
Proof.
  intros H Hkey Hs Hl Hp.
  destruct (validateFormInput_texts _ _ H)
    as (b1 & b4 & b5 & Hb1 & Hb4 & Hb5 & Hk1 & Hk4 & Hk5).
  rewrite <- (trim_padding l m p Hl Hp).
  destruct Hkey as [[-> ->] | [[-> ->] | [-> ->]]]; rewrite (field_getProp _ _ _ Hs) in *.
  - destruct (requiredLength_rule r "name" _ 2 _ b1 ltac:(lia) Hb1 Hk1) as [Hr _].
    exact (Hr _ eq_refl).
  - destruct (requiredLength_rule r "subject" _ 3 _ b4 ltac:(lia) Hb4 Hk4) as [Hr _].
    exact (Hr _ eq_refl).
  - destruct (requiredLength_rule r "message" _ 10 _ b5 ltac:(lia) Hb5 Hk5) as [Hr _].
    exact (Hr _ eq_refl).
Qed.

Lemma padding_does_not_count_witness :
  validateFormInput paddedNameContact = Normal nameErrorOnly
  /\ getProp paddedNameContact "name" = Normal (JStr (lit "   " ++ lit "A" ++ lit "  "))
  /\ (is_Some (errors nameErrorOnly !! "name") <-> (length (trim (lit "A")) < 2)%nat).
Proof.
  assert (validateFormInput paddedNameContact = Normal nameErrorOnly) as H
      by (vm_compute; reflexivity).
  split; [exact H |]. split; [reflexivity |].
  apply (padding_does_not_count paddedNameContact nameErrorOnly "name" 2
           (lit "   ") (lit "A") (lit "  ") H (or_introl (conj eq_refl eq_refl)) eq_refl);
    unfold allSpace; repeat constructor.
Defined.

(** ** The email rule on arbitrary values *)

Lemma validators_email_entry (data : jsval) (r : ValidationResult) (v : jsval) :
  validateJobApplication data = Normal r \/ validateFormInput data = Normal r ->
  getProp data "email" = Normal v ->
  exists b, orElse (negb (truthy v)) (negb <$> regexTest emailRegex v) = Normal b
    /\ errors r !! "email" = if b then Some "Valid email is required" else None.
Proof.
  intros [H | H] Hv;
    [eapply validateJobApplication_email | eapply validateFormInput_email]; eauto.
Qed.

Lemma patternRule_accepts (rx : regex) (v : jsval) (b : bool) :
  orElse (negb (truthy v)) (negb <$> regexTest rx v) = Normal b ->
  (b = false <-> accepts rx v).
Proof.
  unfold orElse, regexTest, accepts. destruct (truthy v); simpl.
  - destruct (toString v) as [s|e]; simpl; [| discriminate].
    intros [= <-]. rewrite negb_false_iff. split.
    + intros Ht. split; [reflexivity |]. eauto.
    + now intros (_ & s' & [= <-] & Ht).
  - intros [= <-]. split; [discriminate | intros [? _]; discriminate].
Qed.

(** X3. The email rule converts before it tests: whatever the type of
    the value, either validator leaves the [email] entry out exactly when
    the value is truthy and its string conversion matches the pattern.
    In particular an array holding one string is judged as that
    string. *)
Theorem email_rule_converts_value (data : jsval) (r : ValidationResult) (v : jsval) :
  validateJobApplication data = Normal r \/ validateFormInput data = Normal r ->
  getProp data "email" = Normal v ->
  (errors r !! "email" = None <-> accepts emailRegex v)
  /\ (forall s, v = JArr [JStr s] -> (errors r !! "email" = None <-> emailPattern s)).
Proof.
  intros H Hv. destruct (validators_email_entry _ _ _ H Hv) as (b & Hb & ->).
  apply patternRule_accepts in Hb.
  assert ((if b then Some "Valid email is required" else None) = None <-> b = false) as Hn
      by (destruct b; split; congruence).
  split; [now rewrite Hn |].
  intros s ->. rewrite Hn, Hb, emailPattern_test. unfold accepts. simpl. split.
  - now intros (_ & s' & [= <-] & Ht).
  - intros Ht. split; [reflexivity |]. eauto.
Qed.

Lemma email_rule_converts_value_witness :
  validateJobApplication bothForms = Normal {| isValid := true; errors := ∅ |}
  /\ validateFormInput bothForms = Normal {| isValid := true; errors := ∅ |}
  /\ getProp bothForms "email" = Normal (str "a@b.com")
  /\ (errors {| isValid := true; errors := ∅ |} !! "email" = None
      <-> accepts emailRegex (str "a@b.com")).
Proof.
  assert (validateJobApplication bothForms = Normal {| isValid := true; errors := ∅ |}) as Hj
      by (vm_compute; reflexivity).
  assert (validateFormInput bothForms = Normal {| isValid := true; errors := ∅ |}) as Hc
      by (vm_compute; reflexivity).
  split; [exact Hj |]. split; [exact Hc |]. split; [reflexivity |].
  pose proof (proj1 (email_rule_converts_value bothForms _ (str "a@b.com")
                       (or_introl Hj) eq_refl)) as H1.
  pose proof (proj1 (email_rule_converts_value bothForms _ (str "a@b.com")
                       (or_intror Hc) eq_refl)) as H2.
  exact H2.
Defined.

Lemma count_occ_plainRun (s : jsstring) :
  Forall (fun c => is_space c = false /\ c <> at_sign) s ->
  @count_occ char N.eq_dec s at_sign = 0%nat.
Proof.
  induction 1 as [|c s [_ Hc] _ IH]; simpl; [reflexivity |].
  destruct (N.eq_dec c at_sign); [contradiction | exact IH].
Qed.

Lemma plainRun_no_space (s : jsstring) :
  plainRun s -> Forall (fun c => is_space c = false) s /\ (1 <= length s)%nat.
Proof.
  intros [Hne H]. split.
  - eapply Forall_impl; [exact H |]. now intros c [Hc _].
  - destruct s; [congruence | simpl; lia].
Qed.

(** X4. A string that passes the email rule of either validator holds
    exactly one [@], holds a dot, holds no whitespace character and has
    at least five characters. *)
Theorem accepted_email_shape (data : jsval) (r : ValidationResult) (s : jsstring) :
  validateJobApplication data = Normal r \/ validateFormInput data = Normal r ->
  getProp data "email" = Normal (JStr s) ->
  errors r !! "email" = None ->
  count_occ N.eq_dec s at_sign = 1%nat
  /\ In dot s
  /\ Forall (fun c => is_space c = false) s
  /\ (5 <= length s)%nat.
Proof.
  intros H Hv Hnone. destruct (validators_email_entry _ _ _ H Hv) as (b & Hb & Hk).
  rewrite patternRule_str in Hb by reflexivity. injection Hb as <-.
  rewrite Hk in Hnone. destruct (test emailRegex s) eqn:Ht; [| discriminate].
  apply emailPattern_test in Ht as (a & d & c & -> & Ha & Hd & Hc).
  pose proof (plainRun_no_space _ Ha) as [Ha1 Ha2].
  pose proof (plainRun_no_space _ Hd) as [Hd1 Hd2].
  pose proof (plainRun_no_space _ Hc) as [Hc1 Hc2].
  destruct Ha as [_ Ha], Hd as [_ Hd], Hc as [_ Hc].
  split; [| split; [| split]].
  - pose proof (count_occ_plainRun a Ha) as Ea.
    pose proof (count_occ_plainRun d Hd) as Ed.
    pose proof (count_occ_plainRun c Hc) as Ec.
    rewrite count_occ_app, Ea. simpl.
    destruct (N.eq_dec at_sign at_sign); [| congruence].
    rewrite count_occ_app, Ed. simpl.
    destruct (N.eq_dec dot at_sign); [discriminate |].
    now rewrite Ec.
  - apply in_or_app. right. right. apply in_or_app. right. now left.
  - apply Forall_app. split; [assumption |]. constructor; [reflexivity |].
    apply Forall_app. split; [assumption |]. constructor; [reflexivity | assumption].
  - rewrite length_app. simpl. rewrite length_app. simpl. lia.
Qed.

Lemma accepted_email_shape_witness :
  validateFormInput goodContact = Normal {| isValid := true; errors := ∅ |}
  /\ getProp goodContact "email" = Normal (JStr (lit "a@b.com"))
  /\ count_occ N.eq_dec (lit "a@b.com") at_sign = 1%nat
  /\ (5 <= length (lit "a@b.com"))%nat.
Proof.
  assert (validateFormInput goodContact = Normal {| isValid := true; errors := ∅ |}) as H
      by (vm_compute; reflexivity).
  split; [exact H |]. split; [reflexivity |].
  destruct (accepted_email_shape goodContact _ (lit "a@b.com") (or_intror H) eq_refl eq_refl)
    as (H1 & _ & _ & H4).
  split; assumption.
Defined.

(** ** Phones *)

Lemma phonePattern_length (s : jsstring) : phonePattern s -> (10 <= length s)%nat.
Proof.
  intros (d & [-> | ->] & Hlen & _); simpl; lia.
Qed.

(** X5. A phone given as a string of fewer than ten characters is
    rejected by both rules: by the pattern of the job application, and,
    unless it is empty, by the digit count of the contact form. *)
Theorem short_phone_rejected (job : jsval) (rj : ValidationResult) (s1 : jsstring)
    (message : jsval) (rc : ValidationResult) (s2 : jsstring) :
  validateJobApplication job = Normal rj ->
  getProp job "phone" = Normal (JStr s1) -> (length s1 < 10)%nat ->
  validateFormInput message = Normal rc ->
  getProp message "fullPhoneNumber" = Normal (JStr s2) ->
  s2 <> [] -> (length s2 < 10)%nat ->
  errors rj !! "phone" = Some "Valid phone number is required"
  /\ errors rc !! "phone" = Some "Invalid phone number length".
Proof.
  intros Hj Hp1 Hl1 Hc Hp2 Hne Hl2. split.
  - destruct (validateJobApplication_phone _ _ _ Hj Hp1) as (b & Hb & ->).
    rewrite patternRule_str in Hb by reflexivity. injection Hb as <-.
    destruct (test phoneRegex s1) eqn:Ht; [| reflexivity].
    apply phonePattern_test, phonePattern_length in Ht. lia.
  - pose proof (validateFormInput_phone _ _ _ Hc Hp2) as Hk.
    assert (truthy (JStr s2) = true) as Ht by (destruct s2; [congruence | reflexivity]).
    rewrite Ht in Hk. destruct Hk as (cl & Hcl & ->).
    cbn [callReplaceNonDigits] in Hcl. injection Hcl as <-.
    pose proof (filter_length_le is_digit s2) as Hle.
    assert (Nat.ltb (length (stripNonDigits s2)) 10 = true) as ->
        by (apply Nat.ltb_lt; unfold stripNonDigits; lia).
    reflexivity.
Qed.

Lemma short_phone_rejected_witness :
  validateJobApplication shortPhoneJob = Normal jobPhoneErrorOnly
  /\ validateFormInput shortPhoneContact = Normal contactPhoneErrorOnly
  /\ errors jobPhoneErrorOnly !! "phone" = Some "Valid phone number is required"
  /\ errors contactPhoneErrorOnly !! "phone" = Some "Invalid phone number length".
Proof.
  assert (validateJobApplication shortPhoneJob = Normal jobPhoneErrorOnly) as Hj
      by (vm_compute; reflexivity).
  assert (validateFormInput shortPhoneContact = Normal contactPhoneErrorOnly) as Hc
      by (vm_compute; reflexivity).
  split; [exact Hj |]. split; [exact Hc |].
  apply (short_phone_rejected shortPhoneJob jobPhoneErrorOnly (lit "12345")
           shortPhoneContact contactPhoneErrorOnly (lit "12345") Hj eq_refl);
    [simpl; lia | exact Hc | reflexivity | discriminate | simpl; lia].
Defined.

(** ** The entries of a result *)

Lemma lookup_setIf_Some (c : bool) (k0 m0 : string) (e : gmap string string)
    (k msg : string) :
  setIf c k0 m0 e !! k = Some msg -> (k = k0 /\ msg = m0) \/ e !! k = Some msg.
Proof.
  destruct c; simpl; [| auto].
  rewrite lookup_insert_Some. intros [[-> ->] | [_ H]]; auto.
Qed.

(** X6. A validator reports under its own keys only, each with its fixed
    message: four keys for the job application, five for the contact
    form, whose phone problems go under [phone], not under the name of
    the field. *)
Theorem error_entries_are_fixed (job : jsval) (rj : ValidationResult)
    (message : jsval) (rc : ValidationResult) :
  validateJobApplication job = Normal rj ->
  validateFormInput message = Normal rc ->
  (forall k msg, errors rj !! k = Some msg ->
     In (k, msg) [("firstName", "First name is required");
                  ("lastName", "Last name is required");
                  ("email", "Valid email is required");
                  ("phone", "Valid phone number is required")])
  /\ (forall k msg, errors rc !! k = Some msg ->
        In (k, msg) [("name", "Valid name is required");
                     ("email", "Valid email is required");
                     ("phone", "Invalid phone number length");
                     ("subject", "Subject is required");
                     ("message", "Message must be at least 10 characters")]).
Proof.
  intros Hj Hc. split; intros k msg Hk.
  - apply validateJobApplication_inv in Hj
      as (? & ? & ? & ? & ? & ? & ? & ? & _ & _ & _ & _ & _ & _ & _ & _ & Herr & _).
    rewrite Herr in Hk.
    repeat (apply lookup_setIf_Some in Hk as [[-> ->] | Hk]; [simpl; tauto |]).
    rewrite lookup_empty in Hk. discriminate.
  - apply validateFormInput_inv in Hc
      as (? & ? & ph & ? & ? & ? & ? & ? & ? & e3
          & _ & _ & _ & _ & _ & He3 & _ & _ & _ & _ & Herr & _).
    rewrite Herr in Hk.
    do 2 (apply lookup_setIf_Some in Hk as [[-> ->] | Hk]; [simpl; tauto |]).
    destruct (truthy ph).
    + bind_inv He3. injection He3 as <-.
      repeat (apply lookup_setIf_Some in Hk as [[-> ->] | Hk]; [simpl; tauto |]).
      rewrite lookup_empty in Hk. discriminate.
    + injection He3 as <-.
      repeat (apply lookup_setIf_Some in Hk as [[-> ->] | Hk]; [simpl; tauto |]).
      rewrite lookup_empty in Hk. discriminate.
Qed.

Lemma error_entries_are_fixed_witness :
  validateJobApplication titleOnlyJob = Normal allJobErrors
  /\ validateFormInput shortPhoneContact = Normal contactPhoneErrorOnly
  /\ forall k msg, errors contactPhoneErrorOnly !! k = Some msg ->
       In (k, msg) [("name", "Valid name is required");
                    ("email", "Valid email is required");
                    ("phone", "Invalid phone number length");
                    ("subject", "Subject is required");
                    ("message", "Message must be at least 10 characters")].
Proof.
  assert (validateJobApplication titleOnlyJob = Normal allJobErrors) as Hj
      by (vm_compute; reflexivity).
  assert (validateFormInput shortPhoneContact = Normal contactPhoneErrorOnly) as Hc
      by (vm_compute; reflexivity).
  split; [exact Hj |]. split; [exact Hc |].
  exact (proj2 (error_entries_are_fixed titleOnlyJob allJobErrors
                  shortPhoneContact contactPhoneErrorOnly Hj Hc)).
Defined.

(** ** When a submission is valid *)

Lemma setIf_empty_iff (c : bool) (k msg : string) (e : gmap string string) :
  setIf c k msg e = ∅ <-> c = false /\ e = ∅.
Proof.
  split; [apply setIf_nonempty | now intros [-> ->]].
Qed.

Lemma optTrim_text (v t : jsval) :
  optTrim v = Normal t -> (negb (truthy t) = false <-> textOfLength 1 v).
Proof.
  unfold textOfLength. destruct v; simpl; intros [= <-]; simpl;
    try (split; [discriminate | intros (s' & [=] & _)]).
  rewrite negb_involutive, Nat.eqb_neq. split.
  - intros H. exists s. split; [reflexivity | lia].
  - intros (s' & [= <-] & H). lia.
Qed.

Lemma blankOrShorter_text (n : nat) (v : jsval) (b : bool) :
  (0 < n)%nat -> blankOrShorter n v = Normal b -> (b = false <-> textOfLength n v).
Proof.
  intros Hn. unfold blankOrShorter, orElse, textOfLength.
  destruct (truthy v) eqn:Ht; simpl.
  - destruct v; simpl; try discriminate. intros [= <-].
    rewrite Nat.ltb_ge. split.
    + intros H. eauto.
    + now intros (s' & [= <-] & H).
  - intros [= <-]. split; [discriminate |].
    intros (s & -> & H). destruct s; [simpl in H; lia | discriminate].
Qed.

Lemma phoneStep_empty_iff (ph : jsval) (m e3 : gmap string string) :
  (if truthy ph
   then
     cleanedPhone ← callReplaceNonDigits ph;
     Normal (setIf (Nat.ltb (length cleanedPhone) 10 || Nat.ltb 15 (length cleanedPhone))
               "phone" "Invalid phone number length" m)
   else Normal m) = Normal e3 ->
  (e3 = ∅ <-> optionalDigits ph /\ m = ∅).
Proof.
  unfold optionalDigits. destruct (truthy ph) eqn:Ht.
  - destruct ph; simpl; try discriminate. intros [= <-].
    rewrite setIf_empty_iff, orb_false_iff, !Nat.ltb_ge. split.
    + intros [[H1 H2] Hm]. split; [| assumption]. right. eauto.
    + intros [[? | (s' & [= <-] & H1 & H2)] Hm]; [discriminate | auto].
  - intros [= <-]. split; [intros ->; auto | tauto].
Qed.

(** X7. The result of the job-application validator is valid exactly
    when the first and the last name are strings with something left
    after trimming and the email and the phone pass their patterns. *)
Theorem job_valid_iff (data : jsval) (r : ValidationResult) :
  validateJobApplication data = Normal r ->
  (isValid r = true
   <-> textOfLength 1 (field data "firstName")
       /\ textOfLength 1 (field data "lastName")
       /\ accepts emailRegex (field data "email")
       /\ accepts phoneRegex (field data "phone")).
Proof.
  intros H. rewrite (validators_isValid _ _ (or_introl H)), objectKeys_empty.
  apply validateJobApplication_inv in H
    as (fn & ln & em & ph & t1 & t2 & b3 & b4
        & Hfn & Ht1 & Hln & Ht2 & Hem & Hb3 & Hph & Hb4 & -> & _).
  rewrite (field_getProp _ _ _ Hfn), (field_getProp _ _ _ Hln),
    (field_getProp _ _ _ Hem), (field_getProp _ _ _ Hph).
  rewrite !setIf_empty_iff.
  rewrite (optTrim_text _ _ Ht1), (optTrim_text _ _ Ht2),
    (patternRule_accepts _ _ _ Hb3), (patternRule_accepts _ _ _ Hb4).
  tauto.
Qed.

Lemma job_valid_iff_witness :
  validateJobApplication goodJob = Normal {| isValid := true; errors := ∅ |}
  /\ textOfLength 1 (field goodJob "firstName")
  /\ accepts phoneRegex (field goodJob "phone").
Proof.
  assert (validateJobApplication goodJob = Normal {| isValid := true; errors := ∅ |}) as H
      by (vm_compute; reflexivity).
  split; [exact H |].
  destruct (proj1 (job_valid_iff goodJob _ H) eq_refl) as (H1 & _ & _ & H4).
  split; assumption.
Defined.

(** X8. The result of the contact validator is valid exactly when the
    name, the subject and the message are strings of trimmed length at
    least 2, 3 and 10, the email passes its pattern, and the phone is
    left out or is a string holding ten to fifteen digits. *)
Theorem contact_valid_iff (data : jsval) (r : ValidationResult) :
  validateFormInput data = Normal r ->
  (isValid r = true
   <-> textOfLength 2 (field data "name")
       /\ accepts emailRegex (field data "email")
       /\ optionalDigits (field data "fullPhoneNumber")
       /\ textOfLength 3 (field data "subject")
       /\ textOfLength 10 (field data "message")).
Proof.
  intros H. rewrite (validators_isValid _ _ (or_intror H)), objectKeys_empty.
  apply validateFormInput_inv in H
    as (nm & em & ph & sj & msg & b1 & b2 & b4 & b5 & e3
        & Hnm & Hb1 & Hem & Hb2 & Hph & He3 & Hsj & Hb4 & Hmsg & Hb5 & -> & _).
  rewrite (field_getProp _ _ _ Hnm), (field_getProp _ _ _ Hem), (field_getProp _ _ _ Hph),
    (field_getProp _ _ _ Hsj), (field_getProp _ _ _ Hmsg).
  rewrite !setIf_empty_iff, (phoneStep_empty_iff _ _ _ He3), !setIf_empty_iff.
  rewrite (blankOrShorter_text 2 _ _ ltac:(lia) Hb1), (blankOrShorter_text 3 _ _ ltac:(lia) Hb4),
    (blankOrShorter_text 10 _ _ ltac:(lia) Hb5), (patternRule_accepts _ _ _ Hb2).
  tauto.
Qed.

Lemma contact_valid_iff_witness :
  validateFormInput goodContact = Normal {| isValid := true; errors := ∅ |}
  /\ textOfLength 2 (field goodContact "name")
  /\ optionalDigits (field goodContact "fullPhoneNumber").
Proof.
  assert (validateFormInput goodContact = Normal {| isValid := true; errors := ∅ |}) as H
      by (vm_compute; reflexivity).
  split; [exact H |].
  destruct (proj1 (contact_valid_iff goodContact _ H) eq_refl) as (H1 & _ & H3 & _).
  split; assumption.
Defined.

(** ** Values of the wrong type, bodies of the wrong shape *)

Lemma optTrim_nonNullishNonString (v : jsval) :
  nonNullishNonString v -> optTrim v = Throw TypeError.
Proof.
  intros (Hu & Hn & Hs). destruct v; simpl; try reflexivity; try congruence.
Qed.

(** X9. The two validators part on a falsy value that is not a string,
    such as the number 0. In a name of the job application every value
    other than [undefined], [null] and a string makes [?.trim()] throw
    and the route answers 500 without dispatch; in the name of the
    contact form a falsy value of any type is just a missing name, and
    the route answers 400 with the name error. *)
Theorem falsy_name_parts_the_routes (env : Env) (t : Transporter) (hrCopy : bool)
    (job : Request) (vj : jsval) (message : Request) (rc : ValidationResult) (vc : jsval)
    (log : list OutboundEmail) :
  getProp (body job) "firstName" = Normal vj \/ getProp (body job) "lastName" = Normal vj ->
  nonNullishNonString vj ->
  validateFormInput (body message) = Normal rc ->
  getProp (body message) "name" = Normal vc ->
  truthy vc = false ->
  (validateJobApplication (body job) = Throw TypeError
   /\ jobApplication env t job log
      = (Normal {| status := 500;
                   json := Failure "Failed to submit application. Please try again later."
                             TypeError |}, log))
  /\ (errors rc !! "name" = Some "Valid name is required"
      /\ contactOf env t hrCopy message log
         = (Normal {| status := 400; json := Errors (errors rc) |}, log)).
Proof.
  intros Hkj Hvj Hc Hkc Hvc. split.
  - assert (validateJobApplication (body job) = Throw TypeError) as Hj.
    { destruct (validateJobApplication (body job)) as [r|e] eqn:H.
      - exfalso. destruct (validateJobApplication_names _ _ H) as (t1 & t2 & H1 & H2 & _).
        destruct Hkj as [Hk | Hk]; rewrite (field_getProp _ _ _ Hk) in *;
          rewrite (optTrim_nonNullishNonString _ Hvj) in *; discriminate.
      - f_equal. eapply validateJobApplication_TypeError; eauto. }
    split; [exact Hj |]. now rewrite (jobApplication_thrown _ _ _ _ _ Hj).
  - destruct (validateFormInput_texts _ _ Hc) as (b1 & b4 & b5 & Hb1 & _ & _ & Hk1 & _).
    rewrite (field_getProp _ _ _ Hkc) in Hb1.
    unfold blankOrShorter in Hb1. rewrite Hvc in Hb1. injection Hb1 as <-.
    split; [exact Hk1 |].
    assert (isValid rc = false) as Hinv.
    { apply (validators_entry_invalid (body message) rc "name"); [now right |].
      rewrite Hk1. eexists; reflexivity. }
    now rewrite (contactOf_validated _ _ _ _ _ _ Hc), Hinv.
Qed.

Lemma falsy_name_parts_the_routes_witness :
  getProp (body zeroNameJob) "firstName" = Normal (num "0")
  /\ nonNullishNonString (num "0")
  /\ validateFormInput (body zeroNameContact) = Normal nameErrorOnly
  /\ getProp (body zeroNameContact) "name" = Normal (num "0")
  /\ jobApplication sampleEnv delivering zeroNameJob []
     = (Normal {| status := 500;
                  json := Failure "Failed to submit application. Please try again later."
                            TypeError |}, [])
  /\ contactOf sampleEnv delivering true zeroNameContact []
     = (Normal {| status := 400; json := Errors (errors nameErrorOnly) |}, []).
Proof.
  assert (nonNullishNonString (num "0")) as Hv by (repeat split; discriminate).
  assert (validateFormInput (body zeroNameContact) = Normal nameErrorOnly) as Hc
      by (vm_compute; reflexivity).
  destruct (falsy_name_parts_the_routes sampleEnv delivering true zeroNameJob (num "0")
              zeroNameContact nameErrorOnly (num "0") []
              (or_introl eq_refl) Hv Hc eq_refl eq_refl) as [[_ H1] [_ H2]].
  split; [reflexivity |]. split; [exact Hv |]. split; [exact Hc |].
  split; [reflexivity |]. split; assumption.
Defined.

(** X10. A truthy [fullPhoneNumber] that is not a string (a JSON number,
    say) has no [replace]: the contact validator throws a [TypeError]
    and the route answers 500 without dispatch, on either server. *)
Theorem non_string_phone_gives_500 (env : Env) (t : Transporter) (hrCopy : bool)
    (message : Request) (v : jsval) (log : list OutboundEmail) :
  getProp (body message) "fullPhoneNumber" = Normal v ->
  truthyNonString v ->
  validateFormInput (body message) = Throw TypeError
  /\ contactOf env t hrCopy message log
     = (Normal {| status := 500;
                  json := Failure "Failed to submit form. Please try again later."
                            TypeError |}, log).
Proof.
  intros Hk [Ht Hs].
  assert (validateFormInput (body message) = Throw TypeError) as Hc.
  { destruct (validateFormInput (body message)) as [r|e] eqn:H.
    - exfalso. pose proof (validateFormInput_phone _ _ _ H Hk) as Hp.
      rewrite Ht in Hp. destruct Hp as (cl & Hcl & _).
      destruct v; simpl in Hcl; try discriminate. now destruct (Hs s).
    - f_equal. eapply validateFormInput_TypeError; eauto. }
  split; [exact Hc |]. now rewrite (contactOf_thrown _ _ _ _ _ _ Hc).
Qed.

Lemma non_string_phone_gives_500_witness :
  getProp (body numberPhoneContact) "fullPhoneNumber" = Normal (num "1234567890")
  /\ truthyNonString (num "1234567890")
  /\ contactOf sampleEnv delivering false numberPhoneContact []
     = (Normal {| status := 500;
                  json := Failure "Failed to submit form. Please try again later."
                            TypeError |}, []).
Proof.
  assert (truthyNonString (num "1234567890")) as Hv by (split; [reflexivity | discriminate]).
  split; [reflexivity |]. split; [exact Hv |].
  exact (proj2 (non_string_phone_gives_500 sampleEnv delivering false numberPhoneContact
                  (num "1234567890") [] eq_refl Hv)).
Defined.

(** X11. A request without a body ([req.body] is [undefined] or [null])
    is answered 500 on both routes, with a [TypeError] and without
    dispatch: reading the first field throws inside the [try]. *)
Theorem missing_body_gives_500 (env : Env) (t : Transporter) (hrCopy : bool)
    (req : Request) (log : list OutboundEmail) :
  body req = JUndefined \/ body req = JNull ->
  jobApplication env t req log
  = (Normal {| status := 500;
               json := Failure "Failed to submit application. Please try again later."
                         TypeError |}, log)
  /\ contactOf env t hrCopy req log
     = (Normal {| status := 500;
                  json := Failure "Failed to submit form. Please try again later."
                            TypeError |}, log).
Proof.
  intros Hb. split.
  - apply (jobApplication_thrown env t req TypeError log).
    destruct Hb as [-> | ->]; reflexivity.
  - apply (contactOf_thrown env t hrCopy req TypeError log).
    destruct Hb as [-> | ->]; reflexivity.
Qed.

Lemma missing_body_gives_500_witness :
  body noBodyRequest = JUndefined
  /\ jobApplication sampleEnv delivering noBodyRequest []
     = (Normal {| status := 500;
                  json := Failure "Failed to submit application. Please try again later."
                            TypeError |}, []).
Proof.
  split; [reflexivity |].
  exact (proj1 (missing_body_gives_500 sampleEnv delivering true noBodyRequest []
                  (or_introl eq_refl))).
Defined.

(** X12. A body from which every field reads as [undefined] (an empty
    object, but also a JSON array, string, number or boolean) is an
    empty form: both validators return the errors of all their required
    fields, and both routes answer 400 with them; on the job-application
    route no [file] error is among them even though no resume came. *)
Theorem empty_body_lists_required_fields (env : Env) (t : Transporter) (hrCopy : bool)
    (req : Request) (log : list OutboundEmail) :
  (forall key, getProp (body req) key = Normal JUndefined) ->
  validateJobApplication (body req) = Normal allJobErrors
  /\ validateFormInput (body req) = Normal allContactErrors
  /\ jobApplication env t req log
     = (Normal {| status := 400; json := Errors (errors allJobErrors) |}, log)
  /\ contactOf env t hrCopy req log
     = (Normal {| status := 400; json := Errors (errors allContactErrors) |}, log)
  /\ errors allJobErrors !! "file" = None.
Proof.
  intros H.
  assert (validateJobApplication (body req) = Normal allJobErrors) as Hj.
  { unfold validateJobApplication. rewrite !H. vm_compute. reflexivity. }
  assert (validateFormInput (body req) = Normal allContactErrors) as Hc.
  { unfold validateFormInput. rewrite !H. vm_compute. reflexivity. }
  split; [exact Hj |]. split; [exact Hc |]. split; [| split].
  - now rewrite (jobApplication_validated _ _ _ _ _ Hj).
  - now rewrite (contactOf_validated _ _ _ _ _ _ Hc).
  - reflexivity.
Qed.

Lemma empty_body_lists_required_fields_witness :
  (forall key, getProp (body arrayBodyRequest) key = Normal JUndefined)
  /\ contactOf sampleEnv delivering true arrayBodyRequest []
     = (Normal {| status := 400; json := Errors (errors allContactErrors) |}, []).
Proof.
  assert (forall key, getProp (body arrayBodyRequest) key = Normal JUndefined) as H
      by (intros key; reflexivity).
  split; [exact H |].
  exact (proj1 (proj2 (proj2 (proj2
    (empty_body_lists_required_fields sampleEnv delivering true arrayBodyRequest [] H))))).
Defined.

(** ** Every way a route can end *)

Lemma interpolate_TypeError (vs : list jsval) (e : exn) :
  interpolate vs = Throw e -> e = TypeError.
Proof.
  induction vs as [|v vs IH]; simpl; [discriminate |]. intros H.
  apply bind_Throw_inv in H as [H | (? & _ & H)]; [now apply toString_TypeError in H |].
  apply bind_Throw_inv in H as [H | (? & _ & H)]; [now apply IH | discriminate].
Qed.

Ltac compose_step H :=
  apply bind_Throw_inv in H as [H | (? & _ & H)];
  [ first [ now apply toString_TypeError in H
          | now apply interpolate_TypeError in H ]
  | ].

Lemma mailOptions_TypeError (env : Env) (fn ln em ph jt jl : jsval) (resume : Upload)
    (e : exn) :
  mailOptions env fn ln em ph jt jl resume = Throw e -> e = TypeError.
Proof. unfold mailOptions. intros H. do 6 compose_step H. discriminate. Qed.

Lemma applicantMailOptions_TypeError (env : Env) (fn em jt jl : jsval) (e : exn) :
  applicantMailOptions env fn em jt jl = Throw e -> e = TypeError.
Proof. unfold applicantMailOptions. intros H. do 2 compose_step H. discriminate. Qed.

Lemma clientMailOptionsOf_TypeError (env : Env) (hrCopy : bool) (nm em ph sj msg : jsval)
    (e : exn) :
  clientMailOptionsOf env hrCopy nm em ph sj msg = Throw e -> e = TypeError.
Proof.
  unfold clientMailOptionsOf. intros H. do 3 compose_step H.
  apply bind_Throw_inv in H as [H | (? & _ & H)].
  - destruct (truthy ph); [now apply interpolate_TypeError in H | discriminate].
  - compose_step H. discriminate.
Qed.

Lemma userMailOptions_TypeError (env : Env) (nm em sj : jsval) (e : exn) :
  userMailOptions env nm em sj = Throw e -> e = TypeError.
Proof. unfold userMailOptions. intros H. do 2 compose_step H. discriminate. Qed.

Lemma settleAll_cases (t : Transporter) (p1 p2 : promise) :
  (settleAll t p1 p2 = Normal tt /\ p1 = Fulfilled /\ p2 = Fulfilled)
  \/ exists reason, settleAll t p1 p2 = Throw (MailError reason)
       /\ (p1 = Rejected reason \/ p2 = Rejected reason).
Proof.
  unfold settleAll, awaitAll, liftC. destruct p1 as [|r1], p2 as [|r2]; simpl; eauto.
  destruct (secondRejectsFirst t); eauto.
Qed.

Lemma afterDispatch_routeOutcome (t : Transporter) (log : list OutboundEmail)
    (m1 m2 : OutboundEmail) (success : Response) (text : string) :
  status success = 200%nat ->
  (exists x, json success = Message x) ->
  routeOutcome log
    (afterDispatch t log m1 m2 success (fun e => {| status := 500; json := Failure text e |})).
Proof.
  intros Hs Hj. unfold routeOutcome, afterDispatch.
  destruct (settleAll_cases t (sendMail t log m1) (sendMail t (log ++ [m1]) m2))
    as [(-> & _) | (reason & -> & _)]; do 2 eexists; (split; [reflexivity |]).
  - right. right. right. eauto.
  - right. right. left. simpl. eauto 8.
Qed.

(** X13. Whatever the request and whatever the transporter does, a route
    answers, and in one of four ways: 400 with a non-empty errors mapping
    and nothing dispatched; 500 with a [TypeError] and nothing
    dispatched; 500 with the error of the transporter after exactly two
    messages; 200 after exactly two messages. No exception leaves the
    handler, and never is a single message dispatched. *)
Theorem every_request_is_answered (env : Env) (t : Transporter) (hrCopy : bool)
    (req : Request) (log : list OutboundEmail) :
  routeOutcome log (jobApplication env t req log)
  /\ routeOutcome log (contactOf env t hrCopy req log).
Proof.
  split.
  - destruct (validateJobApplication (body req)) as [r|e] eqn:Hv.
    + rewrite (jobApplication_validated _ _ _ _ _ Hv).
      destruct (isValid r) eqn:Hval; simpl.
      * destruct (file req) as [resume|].
        -- destruct (mailOptions _ _ _ _ _ _ _ _) as [m1|e] eqn:Hm1.
           ++ destruct (applicantMailOptions _ _ _ _ _) as [m2|e] eqn:Hm2.
              ** apply afterDispatch_routeOutcome; [reflexivity | eexists; reflexivity].
              ** apply applicantMailOptions_TypeError in Hm2 as ->.
                 do 2 eexists. split; [reflexivity |]. right. left. simpl. eauto.
           ++ apply mailOptions_TypeError in Hm1 as ->.
              do 2 eexists. split; [reflexivity |]. right. left. simpl. eauto.
        -- do 2 eexists. split; [reflexivity |]. left. simpl.
           split; [reflexivity |]. split; [| reflexivity].
           eexists. split; [reflexivity |]. apply insert_non_empty.
      * do 2 eexists. split; [reflexivity |]. left. simpl.
        split; [reflexivity |]. split; [| reflexivity].
        eexists. split; [reflexivity |]. eapply validators_invalid_nonempty; eauto.
    + rewrite (jobApplication_thrown _ _ _ _ _ Hv).
      apply validateJobApplication_TypeError in Hv as ->.
      do 2 eexists. split; [reflexivity |]. right. left. simpl. eauto.
  - destruct (validateFormInput (body req)) as [r|e] eqn:Hv.
    + rewrite (contactOf_validated _ _ _ _ _ _ Hv).
      destruct (isValid r) eqn:Hval; simpl.
      * destruct (clientMailOptionsOf _ _ _ _ _ _ _) as [m1|e] eqn:Hm1.
        -- destruct (userMailOptions _ _ _ _) as [m2|e] eqn:Hm2.
           ++ apply afterDispatch_routeOutcome; [reflexivity | eexists; reflexivity].
           ++ apply userMailOptions_TypeError in Hm2 as ->.
              do 2 eexists. split; [reflexivity |]. right. left. simpl. eauto.
        -- apply clientMailOptionsOf_TypeError in Hm1 as ->.
           do 2 eexists. split; [reflexivity |]. right. left. simpl. eauto.
      * do 2 eexists. split; [reflexivity |]. left. simpl.
        split; [reflexivity |]. split; [| reflexivity].
        eexists. split; [reflexivity |]. eapply validators_invalid_nonempty; eauto.
    + rewrite (contactOf_thrown _ _ _ _ _ _ Hv).
      apply validateFormInput_TypeError in Hv as ->.
      do 2 eexists. split; [reflexivity |]. right. left. simpl. eauto.
Qed.




(** ** What the messages carry *)

(** X15. The resume travels with the notification to the staff and with
    nothing else: the notification of a job application has one
    attachment, the upload under its original name and declared type;
    the acknowledgments go to the value of the [email] field, without
    copy and without attachment; the contact notification has no
    attachment either. *)
Theorem resume_goes_to_staff_only (env : Env) (hrCopy : bool)
    (fn ln em ph jt jl : jsval) (resume : Upload) (nm cem cph sj msg : jsval)
    (mj ma mc mu : OutboundEmail) :
  mailOptions env fn ln em ph jt jl resume = Normal mj ->
  applicantMailOptions env fn em jt jl = Normal ma ->
  clientMailOptionsOf env hrCopy nm cem cph sj msg = Normal mc ->
  userMailOptions env nm cem sj = Normal mu ->
  attachments mj
  = [ {| filename := originalname resume; content := buffer resume;
         contentType := mimetype resume |} ]
  /\ (to ma = em /\ cc ma = None /\ attachments ma = [])
  /\ attachments mc = []
  /\ (to mu = cem /\ cc mu = None /\ attachments mu = []).
Proof.
  unfold mailOptions, applicantMailOptions, clientMailOptionsOf, userMailOptions.
  intros Hj Ha Hc Hu.
  do 6 bind_inv Hj. injection Hj as <-.
  do 2 bind_inv Ha. injection Ha as <-.
  do 5 bind_inv Hc. injection Hc as <-.
  do 2 bind_inv Hu. injection Hu as <-.
  simpl. auto 10.
Qed.

Lemma resume_goes_to_staff_only_witness :
  exists mj ma mc mu,
    mailOptions sampleEnv (str "Ann") (str "Lee") (str "a@b.com") (str "+1 (555) 123-4567")
      (str "Engineer") (str "Pune") cv = Normal mj
    /\ applicantMailOptions sampleEnv (str "Ann") (str "a@b.com") (str "Engineer")
         (str "Pune") = Normal ma
    /\ clientMailOptionsOf sampleEnv true (str "Ann") (str "a@b.com") (str "123-456-7890")
         (str "Hello") (str "A long enough message") = Normal mc
    /\ userMailOptions sampleEnv (str "Ann") (str "a@b.com") (str "Hello") = Normal mu
    /\ attachments mj
       = [ {| filename := lit "cv.pdf"; content := [37; 80; 68; 70];
              contentType := lit "application/pdf" |} ]
    /\ to ma = str "a@b.com" /\ attachments ma = [].
Proof.
  do 4 eexists.
  split; [vm_compute; reflexivity |]. split; [vm_compute; reflexivity |].
  split; [vm_compute; reflexivity |]. split; [vm_compute; reflexivity |].
  destruct (resume_goes_to_staff_only sampleEnv true
              (str "Ann") (str "Lee") (str "a@b.com") (str "+1 (555) 123-4567")
              (str "Engineer") (str "Pune") cv
              (str "Ann") (str "a@b.com") (str "123-456-7890")
              (str "Hello") (str "A long enough message") _ _ _ _
              ltac:(vm_compute; reflexivity) ltac:(vm_compute; reflexivity)
              ltac:(vm_compute; reflexivity) ltac:(vm_compute; reflexivity))
    as (H1 & (H2 & _ & H3) & _).
  split; [exact H1 |]. split; [exact H2 | exact H3].
Defined.

(** X16. The job title and the job location are not validated. A valid
    application with a resume that names neither is still dispatched,
    and the subject of its notification reads [undefined] in both
    places; the names follow as submitted, untrimmed. *)
Theorem missing_job_title_reads_undefined (env : Env) (t : Transporter) (job : Request)
    (r : ValidationResult) (resume : Upload) (s1 s2 : jsstring)
    (log : list OutboundEmail) :
  validateJobApplication (body job) = Normal r -> isValid r = true ->
  file job = Some resume ->
  field (body job) "jobTitle" = JUndefined ->
  field (body job) "jobLocation" = JUndefined ->
  field (body job) "firstName" = JStr s1 ->
  field (body job) "lastName" = JStr s2 ->
  exists m1 m2,
    dispatchedBoth t log "Failed to submit application. Please try again later." m1 m2
      (jobApplication env t job log)
    /\ subject m1
       = lit "Xemsoft | New Job Application | undefined | undefined - "
           ++ s1 ++ lit " " ++ s2.
Proof.
  intros Hv Hval Hfile Hjt Hjl Hfn Hln.
  destruct (validateJobApplication_valid_fields _ _ Hv Hval)
    as (_ & _ & [s3 Hem] & [s4 Hph]).
  destruct (mailOptions_composed env (field (body job) "firstName")
              (field (body job) "lastName") (field (body job) "email")
              (field (body job) "phone") (field (body job) "jobTitle")
              (field (body job) "jobLocation") resume s1 s2 s3 s4
              (lit "undefined") (lit "undefined"))
    as [m1 Hm1]; try assumption;
    try (rewrite Hfn; reflexivity); try (rewrite Hln; reflexivity);
    try (rewrite Hjt; reflexivity); try (rewrite Hjl; reflexivity).
  destruct (applicantMailOptions_composed env (field (body job) "firstName")
              (field (body job) "email") (field (body job) "jobTitle")
              (field (body job) "jobLocation") s1 (lit "undefined") (lit "undefined"))
    as [m2 Hm2];
    try (rewrite Hfn; reflexivity); try (rewrite Hjt; reflexivity);
    try (rewrite Hjl; reflexivity).
  exists m1, m2. split.
  - rewrite (jobApplication_validated _ _ _ _ _ Hv), Hval, Hfile, Hm1, Hm2. simpl.
    apply afterDispatch_dispatchedBoth; [reflexivity | eexists; reflexivity].
  - rewrite Hfn, Hln, Hjt, Hjl in Hm1. unfold mailOptions in Hm1.
    do 6 bind_inv Hm1. injection Hm1 as <-. simpl in *.
    repeat match goal with H : Normal _ = Normal _ |- _ => injection H as <- end.
    reflexivity.
Qed.

Lemma missing_job_title_reads_undefined_witness :
  validateJobApplication (body noTitleJob) = Normal {| isValid := true; errors := ∅ |}
  /\ file noTitleJob = Some cv
  /\ field (body noTitleJob) "jobTitle" = JUndefined
  /\ exists m1 m2,
       dispatchedBoth delivering [] "Failed to submit application. Please try again later."
         m1 m2 (jobApplication sampleEnv delivering noTitleJob [])
       /\ subject m1
          = lit "Xemsoft | New Job Application | undefined | undefined - "
              ++ lit " Ann" ++ lit " " ++ lit "Lee".
Proof.
  assert (validateJobApplication (body noTitleJob)
          = Normal {| isValid := true; errors := ∅ |}) as Hv by (vm_compute; reflexivity).
  split; [exact Hv |]. split; [reflexivity |]. split; [reflexivity |].
  exact (missing_job_title_reads_undefined sampleEnv delivering noTitleJob _ cv
           (lit " Ann") (lit "Lee") [] Hv eq_refl eq_refl eq_refl eq_refl eq_refl eq_refl).
Defined.

(** ** Origins and uploads *)

Lemma sameValueZero_str (x : jsstring) (v : jsval) :
  sameValueZero (JStr x) v = true <-> v = JStr x.
Proof.
  destruct v; simpl; try (split; discriminate).
  rewrite bool_decide_eq_true. split; congruence.
Qed.

Lemma sameValueZero_undefined (v : jsval) :
  sameValueZero JUndefined v = true <-> v = JUndefined.
Proof. destruct v; simpl; split; congruence. Qed.

Lemma sameValueZero_envVal (u : option jsstring) (v : jsval) :
  sameValueZero (envVal u) v = true <-> v = envVal u.
Proof. destruct u; [apply sameValueZero_str | apply sameValueZero_undefined]. Qed.

Lemma indexOf_lower (l : list jsval) (v : jsval) : (-1 <= indexOf l v)%Z.
Proof.
  induction l as [|x l IH]; simpl; [lia |].
  destruct (strictEquals x v); [lia |].
  destruct (indexOf l v =? -1)%Z; lia.
Qed.

(** On a list that holds no number, and so no [NaN], [indexOf] finds
    what [includes] finds. *)
Lemma indexOf_includes (l : list jsval) (v : jsval) :
  Forall (fun x => forall text, x <> JNum text) l ->
  negb (indexOf l v =? -1)%Z = includes l v.
Proof.
  induction 1 as [|x l Hx _ IH]; simpl; [reflexivity |].
  assert (strictEquals x v = sameValueZero x v) as ->.
  { destruct x; try reflexivity. now destruct (Hx text). }
  destruct (sameValueZero x v); simpl; [reflexivity |].
  fold (includes l v). rewrite <- IH. pose proof (indexOf_lower l v).
  destruct (indexOf l v =? -1)%Z eqn:E; simpl; [reflexivity |].
  apply Z.eqb_neq in E. apply negb_true_iff, Z.eqb_neq. lia.
Qed.

(** X17. The origin check of the two-endpoint server lets a request
    through exactly when it has no origin (absent or empty, or any falsy
    value), or its origin is one of the two fixed addresses, or it is the
    configured frontend address; every other origin is refused with
    [Not allowed by CORS]. The [undefined] entry of the list admits
    nothing more, and an unset frontend address admits no origin. *)
Theorem cors_origin_allowed_iff (frontendUrl : option jsstring) (origin : jsval) :
  (corsOrigin frontendUrl origin = Pass
   <-> truthy origin = false
       \/ origin = str "http://localhost:5173"
       \/ origin = str "https://xs-gamma.vercel.app"
       \/ exists u, frontendUrl = Some u /\ origin = JStr u)
  /\ (corsOrigin frontendUrl origin = Pass
      \/ corsOrigin frontendUrl origin = Refuse "Not allowed by CORS").
Proof.
  unfold corsOrigin, includes. cbn [existsb].
  split; [| destruct (negb _ || _); auto].
  assert (forall b : bool, (if b then Pass else Refuse "Not allowed by CORS") = Pass
                           <-> b = true) as -> by (intros []; split; congruence).
  rewrite orb_false_r, !orb_true_iff, negb_true_iff.
  rewrite sameValueZero_envVal, sameValueZero_undefined.
  unfold str. rewrite !sameValueZero_str. split.
  - intros [Hf | [He | [Hl | [Hx | Hu]]]]; auto.
    + destruct frontendUrl as [u|]; simpl in He; [eauto 6 | subst; auto].
    + subst. auto.
  - intros [Hf | [Hl | [Hx | (u & -> & ->)]]]; auto.
Qed.

(** X18. The origin check of [src/server.js] lets a request through
    exactly when it has no origin or its origin is [http://localhost:5173]
    or the production address written in the file; every other origin
    is refused with [Not allowed by CORS]. *)
Theorem cors_origin_src_allowed_iff (origin : jsval) :
  (corsOrigin_src origin = Pass
   <-> truthy origin = false
       \/ origin = str "http://localhost:5173"
       \/ origin = str "https://your-production-frontend.com")
  /\ (corsOrigin_src origin = Pass
      \/ corsOrigin_src origin = Refuse "Not allowed by CORS").
Proof.
  unfold corsOrigin_src.
  rewrite indexOf_includes by (repeat constructor; discriminate).
  unfold includes. cbn [existsb].
  split; [| destruct (negb _ || _); auto].
  assert (forall b : bool, (if b then Pass else Refuse "Not allowed by CORS") = Pass
                           <-> b = true) as -> by (intros []; split; congruence).
  rewrite orb_false_r, !orb_true_iff, negb_true_iff, sameValueZero_undefined.
  unfold str. rewrite !sameValueZero_str. split.
  - intros [Hf | [Hl | [Hx | Hu]]]; auto. subst. auto.
  - intros [Hf | [Hl | Hx]]; auto.
Qed.

(** X19. The file filter accepts an upload exactly when its declared
    MIME type is, character for character, one of the three types of PDF
    and Word documents, whatever its name and content; any other upload
    is refused with the message of the source. *)
Theorem fileFilter_accepts_iff (upload : Upload) :
  (fileFilter upload = Pass
   <-> mimetype upload = lit "application/pdf"
       \/ mimetype upload = lit "application/msword"
       \/ mimetype upload
          = lit "application/vnd.openxmlformats-officedocument.wordprocessingml.document")
  /\ (fileFilter upload = Pass
      \/ fileFilter upload
         = Refuse "Invalid file type. Only PDF and Word documents are allowed.")
  /\ (forall other, mimetype other = mimetype upload -> fileFilter other = fileFilter upload).
Proof.
  unfold fileFilter, includes. cbn [existsb].
  split; [| split; [destruct (_ || _); auto | now intros other ->]].
  assert (forall b : bool,
            (if b then Pass
             else Refuse "Invalid file type. Only PDF and Word documents are allowed.") = Pass
            <-> b = true) as -> by (intros []; split; congruence).
  rewrite orb_false_r, !orb_true_iff. unfold str. rewrite !sameValueZero_str.
  split.
  - intros [H | [H | H]]; injection H as H; auto.
  - intros [-> | [-> | ->]]; auto.
Qed.
